(** * Opal scraper: a shallow embedding of [opal_scraper.py]

    The script drives a browser through the Opal portal, reads balances and
    trip rows and writes two JSON files.  The browser is an external
    collaborator: what it answers is data of the model (a [Portal] record),
    what the script does to the outside world is a list of [event]s.

    Text is a byte string holding UTF-8.  White space and digits are
    those of Unicode 14.0 (the tables of the interpreter the script runs
    on); letter case is changed on ASCII letters only, which decides the
    same substring tests on ASCII keywords; [py_len] counts code points.
    Numbers
    of type [float] are IEEE 754 binary64 values.  Log lines are [Log]
    events; the set-up of the log file and the sleeps between browser
    actions are left out.

    Exceptions of the browser are modelled where the script has a
    handler for them (the waits for a selector, the sibling, icon and
    error-message probes, the click on a thumb) and for the two reads of
    the page without thumbs, which no handler covers.  The calls that
    open the page and submit the form ([goto], [fill], the click on the
    login button, [wait_for_load_state]) and the reads that follow a
    successful click in the card loop are taken to return: the
    statements below speak of runs in which they do. *)

From Stdlib Require Import Bool List ZArith Lia Ascii String.
From Stdlib Require Import SpecFloat Sorted.
From Stdlib Require DecimalString.
Import ListNotations.

Local Open Scope string_scope.
Local Open Scope list_scope.
Local Open Scope Z_scope.

(* ================================================================== *)
(** * Python text primitives *)

Module Text.

(** [c in s] for a one-character [c]. *)
Fixpoint has_char (c : ascii) (s : string) : bool :=
  match s with
  | EmptyString => false
  | String d r => Ascii.eqb c d || has_char c r
  end.

(** [s.replace(c, "")] for a one-character pattern. *)
Fixpoint remove_char (c : ascii) (s : string) : string :=
  match s with
  | EmptyString => EmptyString
  | String d r => if Ascii.eqb c d then remove_char c r
                  else String d (remove_char c r)
  end.

(** ** UTF-8 *)

(** One character of a text: an ASCII byte, a code point encoded on
    two to four bytes, or a byte that starts no well-formed sequence. *)
Inductive uchar :=
| Byte (b : ascii)
| Wide (cp : N)
| Bad (b : ascii).

Definition byte (a : ascii) : N := N_of_ascii a.

Definition is_cont (a : ascii) : bool :=
  ((128 <=? byte a) && (byte a <? 192))%N.

(** The code point of a well-formed sequence of two, three or four
    bytes (shortest form only). *)
Definition wide2 (a b : ascii) : option N :=
  if ((194 <=? byte a) && (byte a <? 224))%N && is_cont b
  then Some ((byte a - 192) * 64 + (byte b - 128))%N
  else None.

Definition wide3 (a b c : ascii) : option N :=
  let cp := ((byte a - 224) * 4096 + (byte b - 128) * 64
             + (byte c - 128))%N in
  if ((224 <=? byte a) && (byte a <? 240))%N && is_cont b && is_cont c
     && (2048 <=? cp)%N
  then Some cp
  else None.

Definition wide4 (a b c d : ascii) : option N :=
  let cp := ((byte a - 240) * 262144 + (byte b - 128) * 4096
             + (byte c - 128) * 64 + (byte d - 128))%N in
  if ((240 <=? byte a) && (byte a <? 245))%N
     && is_cont b && is_cont c && is_cont d
     && (65536 <=? cp)%N && (cp <=? 1114111)%N
  then Some cp
  else None.

Fixpoint decode (l : list ascii) : list uchar :=
  match l with
  | [] => []
  | a :: r =>
      if (byte a <? 128)%N then Byte a :: decode r
      else
        match r with
        | b :: r1 =>
            match wide2 a b with
            | Some cp => Wide cp :: decode r1
            | None =>
                match r1 with
                | c :: r2 =>
                    match wide3 a b c with
                    | Some cp => Wide cp :: decode r2
                    | None =>
                        match r2 with
                        | d :: r3 =>
                            match wide4 a b c d with
                            | Some cp => Wide cp :: decode r3
                            | None => Bad a :: decode r
                            end
                        | [] => Bad a :: decode r
                        end
                    end
                | [] => Bad a :: decode r
                end
            end
        | [] => Bad a :: decode r
        end
  end.

(** ** White space *)

(** The characters [str.strip()], [int] and [float] take for white
    space: TAB LF VT FF CR, FS GS RS US, space, NEL, NBSP, U+1680,
    U+2000..U+200A, LS, PS, U+202F, U+205F, U+3000. *)
Definition py_space (cp : N) : bool :=
  ((9 <=? cp) && (cp <=? 13) || (28 <=? cp) && (cp <=? 32) ||
   (cp =? 133) || (cp =? 160) || (cp =? 5760) ||
   (8192 <=? cp) && (cp <=? 8202) ||
   (cp =? 8232) || (cp =? 8233) || (cp =? 8239) || (cp =? 8287) ||
   (cp =? 12288))%N.

(** The characters [trim()] of the page script removes: TAB LF VT FF CR,
    space, NBSP, U+1680, U+2000..U+200A, LS, PS, U+202F, U+205F, U+3000,
    U+FEFF. *)
Definition js_space (cp : N) : bool :=
  ((9 <=? cp) && (cp <=? 13) || (cp =? 32) ||
   (cp =? 160) || (cp =? 5760) ||
   (8192 <=? cp) && (cp <=? 8202) ||
   (cp =? 8232) || (cp =? 8233) || (cp =? 8239) || (cp =? 8287) ||
   (cp =? 12288) || (cp =? 65279))%N.

(** The encodings of the characters of a class, on one, two and three
    bytes (no white space character needs four). *)
Definition space1 (space : N -> bool) (a : ascii) : bool :=
  (byte a <? 128)%N && space (byte a).

Definition space2 (space : N -> bool) (a b : ascii) : bool :=
  match wide2 a b with
  | Some cp => space cp
  | None => false
  end.

Definition space3 (space : N -> bool) (a b c : ascii) : bool :=
  match wide3 a b c with
  | Some cp => space cp
  | None => false
  end.

(** Dropping from the front every character whose bytes [p1], [p2] or
    [p3] recognise. *)
Fixpoint lstrip_with (p1 : ascii -> bool) (p2 : ascii -> ascii -> bool)
         (p3 : ascii -> ascii -> ascii -> bool) (l : list ascii)
  : list ascii :=
  match l with
  | [] => []
  | a :: r =>
      if p1 a then lstrip_with p1 p2 p3 r
      else
        match r with
        | b :: r1 =>
            if p2 a b then lstrip_with p1 p2 p3 r1
            else
              match r1 with
              | c :: r2 =>
                  if p3 a b c then lstrip_with p1 p2 p3 r2 else l
              | [] => l
              end
        | [] => l
        end
  end.

Definition lstrip_bytes (space : N -> bool) (l : list ascii) : list ascii :=
  lstrip_with (space1 space) (space2 space) (space3 space) l.

(** From the back: the same on the reversed bytes. *)
Definition rstrip_bytes (space : N -> bool) (l : list ascii) : list ascii :=
  rev (lstrip_with (space1 space)
                   (fun b a => space2 space a b)
                   (fun c b a => space3 space a b c)
                   (rev l)).

Definition strip_by (space : N -> bool) (s : string) : string :=
  string_of_list_ascii
    (rstrip_bytes space (lstrip_bytes space (list_ascii_of_string s))).

(** [s.strip()]. *)
Definition strip (s : string) : string := strip_by py_space s.

(** Truthiness of a [str]. *)
Definition nonempty (s : string) : bool :=
  match s with EmptyString => false | _ => true end.

(** [s.split(c)]: never the empty list. *)
Fixpoint split (c : ascii) (s : string) : list string :=
  match s with
  | EmptyString => [EmptyString]
  | String d r =>
      if Ascii.eqb c d then EmptyString :: split c r
      else match split c r with
           | [] => [String d EmptyString]
           | w :: ws => String d w :: ws
           end
  end.

(** [needle in s]. *)
Fixpoint contains (needle s : string) : bool :=
  String.prefix needle s ||
  match s with
  | EmptyString => false
  | String _ r => contains needle r
  end.

Definition lower_char (c : ascii) : ascii :=
  let n := N_of_ascii c in
  if ((65 <=? n) && (n <=? 90))%N then ascii_of_N (n + 32) else c.

Fixpoint lower (s : string) : string :=
  match s with
  | EmptyString => EmptyString
  | String c r => String (lower_char c) (lower r)
  end.

Definition upper_char (c : ascii) : ascii :=
  let n := N_of_ascii c in
  if ((97 <=? n) && (n <=? 122))%N then ascii_of_N (n - 32) else c.

Fixpoint upper (s : string) : string :=
  match s with
  | EmptyString => EmptyString
  | String c r => String (upper_char c) (upper r)
  end.

Definition is_digit (c : ascii) : bool :=
  let n := N_of_ascii c in ((48 <=? n) && (n <=? 57))%N.

Definition digit_val (c : ascii) : Z := Z.of_N (N_of_ascii c) - 48.

(** The characters of numeric type digit or decimal beyond ASCII, as
    ranges of code points. *)
Definition digit_ranges : list (N * N) :=
  [
    (178, 179); (185, 185); (1632, 1641); (1776, 1785);
    (1984, 1993); (2406, 2415); (2534, 2543); (2662, 2671);
    (2790, 2799); (2918, 2927); (3046, 3055); (3174, 3183);
    (3302, 3311); (3430, 3439); (3558, 3567); (3664, 3673);
    (3792, 3801); (3872, 3881); (4160, 4169); (4240, 4249);
    (4969, 4977); (6112, 6121); (6160, 6169); (6470, 6479);
    (6608, 6618); (6784, 6793); (6800, 6809); (6992, 7001);
    (7088, 7097); (7232, 7241); (7248, 7257); (8304, 8304);
    (8308, 8313); (8320, 8329); (9312, 9320); (9332, 9340);
    (9352, 9360); (9450, 9450); (9461, 9469); (9471, 9471);
    (10102, 10110); (10112, 10120); (10122, 10130); (42528, 42537);
    (43216, 43225); (43264, 43273); (43472, 43481); (43504, 43513);
    (43600, 43609); (44016, 44025); (65296, 65305); (66720, 66729);
    (68160, 68163); (68912, 68921); (69216, 69224); (69714, 69722);
    (69734, 69743); (69872, 69881); (69942, 69951); (70096, 70105);
    (70384, 70393); (70736, 70745); (70864, 70873); (71248, 71257);
    (71360, 71369); (71472, 71481); (71904, 71913); (72016, 72025);
    (72784, 72793); (73040, 73049); (73120, 73129); (92768, 92777);
    (92864, 92873); (93008, 93017); (120782, 120831); (123200, 123209);
    (123632, 123641); (125264, 125273); (127232, 127242); (130032, 130041)
  ]%N.

Definition in_ranges (cp : N) (ranges : list (N * N)) : bool :=
  existsb (fun r => (fst r <=? cp) && (cp <=? snd r))%N ranges.

Definition uchar_isdigit (u : uchar) : bool :=
  match u with
  | Byte b => is_digit b
  | Wide cp => in_ranges cp digit_ranges
  | Bad _ => false
  end.

(** [s.isdigit()]: at least one character, all of them digits. *)
Definition isdigit (s : string) : bool :=
  match decode (list_ascii_of_string s) with
  | [] => false
  | us => forallb uchar_isdigit us
  end.

(** [len(s)]: code points, that is bytes that are not UTF-8
    continuation bytes. *)
Fixpoint py_len (s : string) : Z :=
  match s with
  | EmptyString => 0
  | String c r =>
      (if N.eqb (N.land (N_of_ascii c) 192) 128 then 0 else 1) + py_len r
  end.

(** [str(n)] for a non-negative integer. *)
Definition str_of_nat (n : nat) : string :=
  DecimalString.NilEmpty.string_of_uint (Nat.to_uint n).

(** Leading digits of [s], most significant first, and what follows. *)
Fixpoint span_digits (s : string) : list Z * string :=
  match s with
  | EmptyString => ([], EmptyString)
  | String c r =>
      if is_digit c
      then let '(ds, rest) := span_digits r in (digit_val c :: ds, rest)
      else ([], s)
  end.

Definition digits_value (ds : list Z) : Z :=
  fold_left (fun acc d => 10 * acc + d) ds 0.

(** The underscore rule of [int()] and [float()]: an underscore only
    between two digits.  [prev] is the previous character. *)
Fixpoint drop_underscores (prev : ascii) (s : string) : option string :=
  match s with
  | EmptyString => if Ascii.eqb prev "_" then None else Some EmptyString
  | String c r =>
      if Ascii.eqb c "_"
      then if is_digit prev then drop_underscores c r else None
      else if Ascii.eqb prev "_" && negb (is_digit c) then None
      else option_map (String c) (drop_underscores c r)
  end.

(** White space of the ASCII text [int] and [float] parse. *)
Definition is_c_space (c : ascii) : bool :=
  let n := N_of_ascii c in ((9 <=? n) && (n <=? 13) || (n =? 32))%N.

Fixpoint c_lstrip (s : string) : string :=
  match s with
  | EmptyString => EmptyString
  | String c r => if is_c_space c then c_lstrip r else s
  end.

Fixpoint c_rstrip (s : string) : string :=
  match s with
  | EmptyString => EmptyString
  | String c r =>
      match c_rstrip r with
      | EmptyString => if is_c_space c then EmptyString
                       else String c EmptyString
      | r' => String c r'
      end
  end.

(** An optional sign in front of [s]: is it a minus, and the rest. *)
Definition take_sign (s : string) : bool * string :=
  match s with
  | String "-" r => (true, r)
  | String "+" r => (false, r)
  | _ => (false, s)
  end.

(** ** Texts of numbers *)

(** The zeros of the decimal digits beyond ASCII; the nine code points
    after each are its digits one to nine. *)
Definition decimal_zeros : list N :=
  [
    1632; 1776; 1984; 2406; 2534; 2662; 2790; 2918;
    3046; 3174; 3302; 3430; 3558; 3664; 3792; 3872;
    4160; 4240; 6112; 6160; 6470; 6608; 6784; 6800;
    6992; 7088; 7232; 7248; 42528; 43216; 43264; 43472;
    43504; 43600; 44016; 65296; 66720; 68912; 69734; 69872;
    69942; 70096; 70384; 70736; 70864; 71248; 71360; 71472;
    71904; 72016; 72784; 73040; 73120; 92768; 92864; 93008;
    120782; 120792; 120802; 120812; 120822; 123200; 123632; 125264;
    130032
  ]%N.

Definition decimal_value (cp : N) : option N :=
  match find (fun z => (z <=? cp) && (cp <? z + 10))%N decimal_zeros with
  | Some z => Some (cp - z)%N
  | None => None
  end.

Definition digit_char (d : N) : ascii :=
  match d with
  | 0 => "0" | 1 => "1" | 2 => "2" | 3 => "3" | 4 => "4"
  | 5 => "5" | 6 => "6" | 7 => "7" | 8 => "8" | 9 => "9"
  | _ => "?"
  end%N%char.

(** What [int] and [float] make of a text that is not pure ASCII before
    they parse it: white space becomes a space, a decimal digit its ASCII
    digit, and the text is cut after a "?" at the first other character
    that is not below DEL. *)
Fixpoint numeric_ascii (us : list uchar) : list ascii :=
  match us with
  | [] => []
  | Byte b :: rest =>
      if (byte b <? 127)%N then b :: numeric_ascii rest else ["?"%char]
  | Wide cp :: rest =>
      if py_space cp then " "%char :: numeric_ascii rest
      else match decimal_value cp with
           | Some d => digit_char d :: numeric_ascii rest
           | None => ["?"%char]
           end
  | Bad _ :: _ => ["?"%char]
  end.

Definition numeric_text (s : string) : string :=
  let l := list_ascii_of_string s in
  if forallb (fun a => byte a <? 128)%N l then s
  else string_of_list_ascii (numeric_ascii (decode l)).

(* Keep the table-driven functions folded under [simpl] and [cbn]. *)
Arguments strip_by : simpl never.
Arguments numeric_text : simpl never.
Arguments isdigit : simpl never.

End Text.

(* ================================================================== *)
(** * Python [float]: IEEE 754 binary64 *)

Module PyFloat.
Import Text.

Definition float := spec_float.

Definition prec := 53.
Definition emax := 1024.

Definition zero : float := S754_zero false.
Definition neg (x : float) : float := SFopp x.

(** Sign bit ([None] for a NaN). *)
Definition sign_bit (x : float) : option bool :=
  match x with
  | S754_zero s | S754_infinity s | S754_finite s _ _ => Some s
  | S754_nan => None
  end.

(** [m * 10^e10] rounded to nearest even. *)
Definition of_decimal (s : bool) (m e10 ndigits : Z) : float :=
  if m =? 0 then S754_zero s
  else if 310 <? e10 then S754_infinity s
  else if e10 + ndigits <? -330 then S754_zero s
  else if 0 <=? e10
  then match m * 10 ^ e10 with
       | Zpos p => binary_round prec emax s p 0
       | _ => S754_zero s
       end
  else let '(q, e, l) := SFdiv_core_binary prec emax m 0 (10 ^ (- e10)) 0 in
       binary_round_aux prec emax s q e l.

Inductive magnitude :=
| MInf
| MNan
| MDec (m e10 ndigits : Z).

(** [e] or [E], an optional sign, at least one digit, nothing after. *)
Definition parse_exponent (s : string) : option Z :=
  match s with
  | EmptyString => Some 0
  | String c r =>
      if Ascii.eqb c "e" || Ascii.eqb c "E"
      then let '(sg, r1) := take_sign r in
           match span_digits r1 with
           | ([], _) => None
           | (ds, EmptyString) =>
               Some (if sg then - digits_value ds else digits_value ds)
           | (_, String _ _) => None
           end
      else None
  end.

Definition parse_magnitude (s : string) : option magnitude :=
  let l := lower s in
  if String.eqb l "inf" || String.eqb l "infinity" then Some MInf
  else if String.eqb l "nan" then Some MNan
  else
    let '(ip, r1) := span_digits s in
    let '(fp, r2) :=
      match r1 with
      | String "." r => span_digits r
      | _ => ([], r1)
      end in
    match ip ++ fp with
    | [] => None
    | ds =>
        match parse_exponent r2 with
        | Some e => Some (MDec (digits_value ds)
                               (e - Z.of_nat (List.length fp))
                               (Z.of_nat (List.length ds)))
        | None => None
        end
    end.

Definition of_magnitude (s : bool) (m : magnitude) : float :=
  match m with
  | MInf => S754_infinity s
  | MNan => S754_nan
  | MDec m e n => of_decimal s m e n
  end.

(** The parse of the ASCII text of a number. *)
Definition float_of_ascii (s : string) : option float :=
  match drop_underscores "000"%char s with
  | None => None
  | Some t =>
      let '(sg, body) := take_sign (c_rstrip (c_lstrip t)) in
      option_map (of_magnitude sg) (parse_magnitude body)
  end.

(** [float(s)]; [None] is [ValueError]. *)
Definition py_float (s : string) : option float :=
  float_of_ascii (numeric_text s).

(** A float literal of the source, read as Python reads it. *)
Definition lit (s : string) : float :=
  match py_float s with Some x => x | None => S754_nan end.

End PyFloat.

Import Text PyFloat.

(* ================================================================== *)
(** * Exceptions *)

(** The exceptions the model raises: [ValueError] from [int], [float],
    tuple unpacking and [replace]; [OverflowError] from [astimezone];
    an error of the browser on a click.  A timeout of a wait is part of
    what the browser answers, see [Portal]. *)
Inductive exn :=
| ValueError
| OverflowError
| PlaywrightError (msg : string).

Inductive result (A : Type) :=
| Ok (a : A)
| Raise (e : exn).
Arguments Ok {A} a.
Arguments Raise {A} e.

Definition rbind {A B} (r : result A) (k : A -> result B) : result B :=
  match r with
  | Ok a => k a
  | Raise e => Raise e
  end.

Definition or_raise {A} (e : exn) (o : option A) : result A :=
  match o with
  | Some a => Ok a
  | None => Raise e
  end.

Declare Scope result_scope.
Delimit Scope result_scope with result.
Notation "x <- r ;; k" := (rbind r (fun x => k))
  (at level 61, r at next level, right associativity) : result_scope.

(** The interpreter's default bound on the digits of a decimal text
    given to [int]. *)
Definition int_max_str_digits : nat := 4300.

(** The parse of the ASCII text of an integer in base 10. *)
Definition int_of_ascii (s : string) : option Z :=
  let '(sg, body) := take_sign (c_rstrip (c_lstrip s)) in
  match drop_underscores "000"%char body with
  | None => None
  | Some t =>
      match span_digits t with
      | ([], _) => None
      | (ds, EmptyString) =>
          if (List.length ds <=? int_max_str_digits)%nat
          then Some (if sg then - digits_value ds else digits_value ds)
          else None
      | (_, String _ _) => None
      end
  end.

(** [int(s)] in base 10; [None] is [ValueError]. *)
Definition py_int (s : string) : option Z := int_of_ascii (numeric_text s).

(* ================================================================== *)
(** * [datetime] *)

Module PyTime.

Record date := mkDate { year : Z; month : Z; day : Z }.

(** Wall-clock reading; [tz] is the UTC offset in minutes of an aware
    datetime, [None] for a naive one. *)
Record datetime := mkDatetime {
  on : date;
  hour : Z;
  minute : Z;
  second : Z;
  microsecond : Z;
  tz : option Z
}.

Definition is_leap (y : Z) : bool :=
  (y mod 4 =? 0) && (negb (y mod 100 =? 0) || (y mod 400 =? 0)).

Definition days_in_month (y m : Z) : Z :=
  if m =? 2 then (if is_leap y then 29 else 28)
  else if (m =? 4) || (m =? 6) || (m =? 9) || (m =? 11) then 30
  else 31.

Definition valid_date (d : date) : bool :=
  (1 <=? year d) && (year d <=? 9999) &&
  (1 <=? month d) && (month d <=? 12) &&
  (1 <=? day d) && (day d <=? days_in_month (year d) (month d)).

(** The day before and the day after; [None] outside years 1..9999. *)
Definition prev_day (d : date) : option date :=
  if 1 <? day d then Some (mkDate (year d) (month d) (day d - 1))
  else if 1 <? month d
  then Some (mkDate (year d) (month d - 1)
                    (days_in_month (year d) (month d - 1)))
  else if 1 <? year d then Some (mkDate (year d - 1) 12 31)
  else None.

Definition next_day (d : date) : option date :=
  if day d <? days_in_month (year d) (month d)
  then Some (mkDate (year d) (month d) (day d + 1))
  else if month d <? 12 then Some (mkDate (year d) (month d + 1) 1)
  else if year d <? 9999 then Some (mkDate (year d + 1) 1 1)
  else None.

(** [datetime.now(zone)]: the clock's reading with the zone attached. *)
Definition in_zone (offset : Z) (t : datetime) : datetime :=
  mkDatetime (on t) (hour t) (minute t) (second t) (microsecond t)
             (Some offset).

(** [t.replace(hour=h, minute=m, second=0, microsecond=0)]. *)
Definition replace_hm (t : datetime) (h m : Z) : result datetime :=
  if (0 <=? h) && (h <=? 23) && (0 <=? m) && (m <=? 59)
  then Ok (mkDatetime (on t) h m 0 0 (tz t))
  else Raise ValueError.

(** [t.astimezone(timezone.utc)] for an aware [t] whose offset lies
    within a day: the wall clock moves back by the offset and the date
    follows. *)
Definition astimezone_utc (t : datetime) : result datetime :=
  let off := match tz t with Some o => o | None => 0 end in
  let total := hour t * 60 + minute t - off in
  let rebuilt (d : date) :=
    mkDatetime d ((total mod 1440) / 60) ((total mod 1440) mod 60)
               (second t) (microsecond t) (Some 0) in
  if total <? 0
  then or_raise OverflowError (option_map rebuilt (prev_day (on t)))
  else if total <? 1440 then Ok (rebuilt (on t))
  else or_raise OverflowError (option_map rebuilt (next_day (on t))).

(** Zero-padded decimal of a non-negative number. *)
Definition pad (width : nat) (n : Z) : string :=
  let s := str_of_nat (Z.to_nat n) in
  let fix zeros (k : nat) : string :=
    match k with
    | O => EmptyString
    | S k' => String "0" (zeros k')
    end in
  zeros (width - String.length s)%nat ++ s.

Definition offset_text (o : Z) : string :=
  (if o <? 0 then "-" else "+") ++
  pad 2 (Z.abs o / 60) ++ ":" ++ pad 2 (Z.abs o mod 60).

(** [t.isoformat()]. *)
Definition isoformat (t : datetime) : string :=
  pad 4 (year (on t)) ++ "-" ++ pad 2 (month (on t)) ++ "-" ++
  pad 2 (day (on t)) ++ "T" ++
  pad 2 (hour t) ++ ":" ++ pad 2 (minute t) ++ ":" ++ pad 2 (second t) ++
  (if microsecond t =? 0 then "" else "." ++ pad 6 (microsecond t)) ++
  match tz t with
  | Some o => offset_text o
  | None => ""
  end.

(** Days since 0001-01-01 is day 1, as [date.toordinal()]. *)
Definition days_before_year (y : Z) : Z :=
  let p := y - 1 in p * 365 + p / 4 - p / 100 + p / 400.

Fixpoint days_before_month_aux (y : Z) (m : nat) : Z :=
  match m with
  | O => 0
  | S m' => days_before_month_aux y m' + days_in_month y (Z.of_nat m)
  end.

Definition days_before_month (y m : Z) : Z :=
  days_before_month_aux y (Z.to_nat (m - 1)).

Definition toordinal (d : date) : Z :=
  days_before_year (year d) + days_before_month (year d) (month d) + day d.

(** The instant an aware datetime denotes, in microseconds from the
    start of day 0 in UTC. *)
Definition instant (t : datetime) : Z :=
  let off := match tz t with Some o => o | None => 0 end in
  (((toordinal (on t) * 24 + hour t) * 60 + minute t - off) * 60
   + second t) * 1000000 + microsecond t.

(** Minutes on the wall clock since the start of day 0. *)
Definition wall_minutes (t : datetime) : Z :=
  (toordinal (on t) * 24 + hour t) * 60 + minute t.

End PyTime.

Import PyTime.

(** The three clocks the script reads: [datetime.now(local_zone)],
    [datetime.now(timezone.utc)] and [datetime.now()].  One reading stands
    for every read of a run. *)
Record Clock := mkClock {
  local_now : datetime;
  utc_now : datetime;
  sys_now : datetime
}.

Definition local_zone : Z := 11 * 60.

(* ================================================================== *)
(** * The script *)

Section to_utc_and_local.
Local Open Scope result_scope.

(** The [try] block of [to_utc_and_local], before the two [isoformat]
    calls. *)
Definition convert_time (clk : Clock) (time_text : string)
  : result (datetime * datetime) :=
  parts <- match split ":" time_text with
           | [hh; mm] => Ok (hh, mm)
           | _ => Raise ValueError
           end ;;
  h <- or_raise ValueError (py_int (fst parts)) ;;
  m <- or_raise ValueError (py_int (snd parts)) ;;
  local_time <- replace_hm (in_zone local_zone (local_now clk)) h m ;;
  utc_time <- astimezone_utc local_time ;;
  Ok (local_time, utc_time).

(** [to_utc_and_local]: any exception of the [try] block leads to the
    [except] branch. *)
Definition to_utc_and_local (clk : Clock) (time_text : string)
  : string * string :=
  match convert_time clk time_text with
  | Ok (local_time, utc_time) => (isoformat local_time, isoformat utc_time)
  | Raise _ =>
      let now := in_zone 0 (utc_now clk) in
      (isoformat now, isoformat now)
  end.
End to_utc_and_local.

(** ** What the browser answers *)

(** Outcome of probing the page for something optional. *)
Inductive probe (A : Type) :=
| Raised
| Got (a : A).
Arguments Raised {A}.
Arguments Got {A} a.

(** The transport icon of a row: the query may fail, find nothing, or find
    an element whose [iconname] attribute may be missing. *)
Inductive IconProbe :=
| IconRaises
| IconAbsent
| IconName (iconname : option string).

(** One [.card-activity-item] row: the inner text of each child element,
    [None] where the selector matches nothing. *)
Record TripItem := mkTripItem {
  date_el : option string;
  from_el : option string;
  to_el : option string;
  amount_span_el : option string;
  amount_el : option string;
  icon : IconProbe
}.

(** The trip list of the active card: the wait for the first row times
    out, or the rows are there. *)
Inductive TripsView :=
| TripsTimeout
| TripsRows (items : list TripItem).

(** The element after a card thumb. *)
Inductive SiblingProbe :=
| SiblingRaises
| SiblingAbsent
| SiblingText (inner_text : string).

(** One [.opal-selector__card] thumb and what the page shows once it is
    clicked.  [name_read k] is the [k]-th read of the first visible
    [.opal-selector__card-name] after the click; [polls] is the number
    of loop iterations the five seconds of [wait_for_value_change] leave
    room for. *)
Record CardThumb := mkCardThumb {
  sibling : SiblingProbe;
  click_error : option string;
  polls : nat;
  name_read : nat -> option string;
  value_text : option string;
  trip_view : TripsView
}.

(** The page of an account without card thumbs: what the two calls of
    [get_first_visible_text] give, a text, nothing, or an exception,
    and the trip list. *)
Record SoloView := mkSoloView {
  solo_name : result (option string);
  solo_value : result (option string);
  solo_trips : TripsView
}.

Inductive ErrorProbe :=
| ErrorRaises
| ErrorAbsent
| ErrorText (inner_text : string).

Record Portal := mkPortal {
  username_ctrl : bool;      (* '#usernameCrtl' appears in time *)
  password_ctrl : bool;      (* '#passwordCtrl' appears in time *)
  card_name_shown : bool;    (* '.opal-selector__card-name' appears in time *)
  still_login : bool;
  error_el : ErrorProbe;
  card_thumbs : probe (list CardThumb);
  solo : SoloView
}.

(** ** Records and JSON *)

#[warnings="-register-all"]
Inductive json :=
| JNull
| JFloat (x : float)
| JStr (s : string)
| JArr (items : list json)
| JObj (fields : list (string * json)).

Definition json_opt_str (o : option string) : json :=
  match o with
  | Some s => JStr s
  | None => JNull
  end.

Record Trip := mkTrip {
  time_local : string;
  time_utc : string;
  amount : float;
  currency : string;
  description : string;
  card_id : option string;
  trip_type : string;
  tap_on_location : string;
  tap_off_location : string
}.

Record Balance := mkBalance {
  bal_card_id : option string;
  bal_balance : float;
  bal_currency : string
}.

Definition trip_json (t : Trip) : json :=
  JObj [ ("time_local", JStr (time_local t));
         ("time_utc", JStr (time_utc t));
         ("amount", JFloat (amount t));
         ("currency", JStr (currency t));
         ("description", JStr (description t));
         ("card_id", json_opt_str (card_id t));
         ("trip_type", JStr (trip_type t));
         ("tap_on_location", JStr (tap_on_location t));
         ("tap_off_location", JStr (tap_off_location t)) ].

Definition balance_json (b : Balance) : json :=
  JObj [ ("card_id", json_opt_str (bal_card_id b));
         ("balance", JFloat (bal_balance b));
         ("currency", JStr (bal_currency b)) ].

(** ** What the script does *)

Inductive level := INFO | WARNING | ERROR.

Inductive log_msg :=
| OpeningLoginPage
| LoginFormNotFound
| FillingLoginForm
| WaitingForLogin
| LoginSuccessful
| LoginFailed (detail : string)
| LoginTimeout
| DetectedCards (n : nat)
| NoTripItems (card : option string)
| FoundTrips (n : nat) (card : option string)
| SkippedTripItem (e : exn)
| ProcessingCard (idx n : nat) (card : string) (bal : option float)
| ErrorProcessingCard (idx : nat) (e : exn)
| SavedTransactions (n : nat)
| SavedBalances
| DemoWritten.

Inductive event :=
| Log (l : level) (m : log_msg)
| Prompt (text : string)
| BrowserLaunch
| Goto (url : string)
| Fill (selector value : string)
| ClickLogin
| WaitNetworkIdle
| ClickThumb (idx : nat)
| BrowserClose
| WriteFile (path : string) (content : json).

(** Events that talk to the browser, hence to the network. *)
Definition is_browser (ev : event) : bool :=
  match ev with
  | BrowserLaunch | Goto _ | Fill _ _ | ClickLogin | WaitNetworkIdle
  | ClickThumb _ | BrowserClose => true
  | Log _ _ | Prompt _ | WriteFile _ _ => false
  end.

(** What was written to [path], in order. *)
Fixpoint writes_to (path : string) (evs : list event) : list json :=
  match evs with
  | [] => []
  | WriteFile p c :: rest =>
      if String.eqb p path then c :: writes_to path rest
      else writes_to path rest
  | _ :: rest => writes_to path rest
  end.

Definition is_write (ev : event) : bool :=
  match ev with
  | WriteFile _ _ => true
  | _ => false
  end.

(** A computation of the script: the events it emits, then a value or an
    exception. *)
Module Run.
Definition M (A : Type) : Type := (list event * result A)%type.

Definition ret {A} (a : A) : M A := ([], Ok a).
Definition raise {A} (e : exn) : M A := ([], Raise e).
Definition emit (ev : event) : M unit := ([ev], Ok tt).
Definition log (l : level) (m : log_msg) : M unit := emit (Log l m).

Definition bind {A B} (m : M A) (k : A -> M B) : M B :=
  match m with
  | (evs, Ok a) => let '(evs', r) := k a in (evs ++ evs', r)
  | (evs, Raise e) => (evs, Raise e)
  end.

(** [try: m  except Exception as e: handler e]. *)
Definition try_ {A} (m : M A) (handler : exn -> M A) : M A :=
  match m with
  | (evs, Raise e) => let '(evs', r) := handler e in (evs ++ evs', r)
  | done => done
  end.

(** A value or an exception that comes with no event of its own. *)
Definition lift {A} (r : result A) : M A := ([], r).

Definition events {A} (m : M A) : list event := fst m.
Definition outcome {A} (m : M A) : result A := snd m.
End Run.
Import Run.

Declare Scope run_scope.
Delimit Scope run_scope with run.
Notation "x <- m ;; k" := (bind m (fun x => k))
  (at level 61, m at next level, right associativity) : run_scope.
Notation "m ;; k" := (bind m (fun _ => k))
  (at level 61, right associativity) : run_scope.

Definition text_of (o : option string) : string :=
  match o with
  | Some s => s
  | None => ""
  end.

(** Truthiness of an optional text: neither [None] nor empty. *)
Definition truthy (o : option string) : bool :=
  match o with
  | Some s => nonempty s
  | None => false
  end.

(** ** [wait_for_value_change] *)

(** [n] loop iterations remain before the deadline; [k] reads of the
    selector were made so far. *)
Fixpoint wait_loop (read : nat -> option string) (previous_value : string)
         (n k : nat) : option string :=
  match n with
  | O => read k
  | S n' =>
      let value := read k in
      if truthy value &&
         negb (String.eqb (text_of value) previous_value)
      then value
      else wait_loop read previous_value n' (S k)
  end.

Definition wait_for_value_change (read : nat -> option string)
           (previous_value : string) (polls : nat) : option string :=
  wait_loop read previous_value polls 0.

(** ** [parse_card_info_from_text] *)

Definition is_amount (line : string) : bool :=
  isdigit (remove_char " " (remove_char "-" (remove_char "." line))) ||
  (isdigit (remove_char " " (remove_char "-" (remove_char "."
              (remove_char "$" line)))) && has_char "." line).

Definition card_info_step (acc : option string * option string)
           (line : string) : option string * option string :=
  let '(card_name, balance) := acc in
  if String.prefix "$" line then (card_name, Some line)
  else if negb (is_amount line) && nonempty line &&
          (0 <? py_len line) && (py_len line <? 50)
       then (Some line, balance)
       else (card_name, balance).

Definition newline : ascii := "010"%char.

Definition parse_card_info_from_text (text : string)
  : option string * option string :=
  let lines := map strip (filter (fun l => nonempty (strip l))
                                 (split newline text)) in
  let '(card_name, balance) := fold_left card_info_step lines (None, None) in
  (if truthy card_name then option_map strip card_name else None, balance).

(** ** [extract_trip_items] *)

(** The [if]/[elif] chain on the lower-cased icon name. *)
Definition classify (name : string) : string :=
  if contains "train" name then "Train"
  else if contains "metro" name then "Metro"
  else if contains "bus" name then "Bus"
  else if contains "ferry" name then "Ferry"
  else if contains "light" name || contains "rail" name then "Light Rail"
  else "Unknown".

Definition trip_type_of (i : IconProbe) : string :=
  match i with
  | IconName a =>
      classify (lower (text_of a))
  | IconAbsent => "Unknown"
  | IconRaises => "Unknown"
  end.

Definition clean_amount (amount_text : string) : string :=
  strip (remove_char "-" (remove_char "," (remove_char "$" amount_text))).

Definition parse_amount (amount_text : string) : result float :=
  let clean := clean_amount amount_text in
  (amt <- (if nonempty clean then or_raise ValueError (py_float clean)
           else Ok zero) ;;
   Ok (if has_char "-" amount_text then neg amt else amt))%result.

Definition or_else {A} (a b : option A) : option A :=
  match a with
  | Some _ => a
  | None => b
  end.

(** The body of the row loop: [Ok None] is the [continue] of a row with
    a missing element, [Raise] what the row's [except] catches. *)
Definition trip_of_item (clk : Clock) (card_name : option string)
           (item : TripItem) : result (option Trip) :=
  match date_el item, from_el item, to_el item,
        or_else (amount_span_el item) (amount_el item) with
  | Some time_raw, Some from_raw, Some to_raw, Some amount_raw =>
      let time_text := strip time_raw in
      let from_loc := strip from_raw in
      let to_loc := strip to_raw in
      let amount_text := strip amount_raw in
      (amt <- parse_amount amount_text ;;
       let trip_type := trip_type_of (icon item) in
       let '(time_local, time_utc) := to_utc_and_local clk time_text in
       Ok (Some {| time_local := time_local;
                   time_utc := time_utc;
                   amount := amt;
                   currency := "AUD";
                   description :=
                     from_loc ++ " → " ++ to_loc ++ " (" ++ trip_type ++ ")";
                   card_id := card_name;
                   trip_type := trip_type;
                   tap_on_location := from_loc;
                   tap_off_location := to_loc |}))%result
  | _, _, _, _ => Ok None
  end.

Section extract_trip_items.
Local Open Scope run_scope.

Definition row_step (clk : Clock) (card_name : option string)
           (trips : list Trip) (item : TripItem) : M (list Trip) :=
  match trip_of_item clk card_name item with
  | Ok None => ret trips
  | Ok (Some t) => ret (trips ++ [t])
  | Raise e => log WARNING (SkippedTripItem e) ;; ret trips
  end.

Fixpoint row_loop (clk : Clock) (card_name : option string)
         (items : list TripItem) (trips : list Trip) : M (list Trip) :=
  match items with
  | [] => ret trips
  | item :: rest =>
      trips' <- row_step clk card_name trips item ;;
      row_loop clk card_name rest trips'
  end.

Definition extract_trip_items (clk : Clock) (card_name : option string)
           (view : TripsView) : M (list Trip) :=
  match view with
  | TripsTimeout => log WARNING (NoTripItems card_name) ;; ret []
  | TripsRows items =>
      log INFO (FoundTrips (List.length items) card_name) ;;
      row_loop clk card_name items []
  end.
End extract_trip_items.

(** ** [scrape_opal] *)

Definition login_url : string :=
  "https://transportnsw.info/tickets-fares/opal-login#/login".

(** The text of a balance read off the page, as a number. *)
Definition parse_balance (balance_text : option string) : option float :=
  match balance_text with
  | Some t =>
      if nonempty t
      then py_float (strip (remove_char "," (remove_char "$" t)))
      else None
  | None => None
  end.

(** Name and balance read from the element after the thumb. *)
Definition sibling_info (p : SiblingProbe) : option string * option string :=
  match p with
  | SiblingText sibling_text =>
      if nonempty sibling_text then parse_card_info_from_text sibling_text
      else (None, None)
  | SiblingAbsent => (None, None)
  | SiblingRaises => (None, None)
  end.

(** The text the page shows for the card just clicked: read once when no
    previous name is known, else awaited. *)
Definition shown_name (prev_name : string) (read : nat -> option string)
           (polls : nat) : option string :=
  if nonempty prev_name
  then wait_for_value_change read prev_name polls
  else read 0%nat.

(** The name given to the card at position [idx] (counted from 1). *)
Definition resolve_card_name (idx : nat) (prev_name : string)
           (card_name_from_thumb : option string)
           (read : nat -> option string) (polls : nat) : string :=
  if truthy card_name_from_thumb then text_of card_name_from_thumb
  else
    let card_name := shown_name prev_name read polls in
    if truthy card_name then text_of card_name
    else "Card_" ++ str_of_nat idx.

(** What the card loop carries from one thumb to the next. *)
Record LoopState := mkLoopState {
  prev_name : string;
  all_transactions : list Trip;
  balance_list : list Balance
}.

Section scrape_opal.
Local Open Scope run_scope.

Variable clk : Clock.

Definition click (idx : nat) (thumb : CardThumb) : M unit :=
  match click_error thumb with
  | Some msg => raise (PlaywrightError msg)
  | None => emit (ClickThumb idx)
  end.

Definition add_balance (card_name : option string) (bal : option float)
           (l : list Balance) : list Balance :=
  match bal with
  | Some b => l ++ [mkBalance card_name b "AUD"]
  | None => l
  end.

(** The body of the [for idx, thumb in enumerate(card_thumbs, start=1)]
    loop, with its [try]/[except]. *)
Definition card_step (num_cards : nat) (st : LoopState) (idx : nat)
           (thumb : CardThumb) : M LoopState :=
  try_
    (let '(card_name_from_thumb, balance_from_thumb) :=
       sibling_info (sibling thumb) in
     click idx thumb ;;
     let card_name :=
       resolve_card_name idx (prev_name st) card_name_from_thumb
                         (name_read thumb) (polls thumb) in
     let balance_text :=
       if truthy balance_from_thumb then balance_from_thumb
       else value_text thumb in
     let bal := parse_balance balance_text in
     log INFO (ProcessingCard idx num_cards card_name bal) ;;
     trips <- extract_trip_items clk (Some card_name) (trip_view thumb) ;;
     ret (mkLoopState card_name
                      (all_transactions st ++ trips)
                      (add_balance (Some card_name) bal (balance_list st))))
    (fun e => log WARNING (ErrorProcessingCard idx e) ;; ret st).

Fixpoint card_loop (num_cards : nat) (thumbs : list CardThumb) (idx : nat)
         (st : LoopState) : M LoopState :=
  match thumbs with
  | [] => ret st
  | thumb :: rest =>
      st' <- card_step num_cards st idx thumb ;;
      card_loop num_cards rest (S idx) st'
  end.

(** The branch for [num_cards == 0]: the two reads are outside any
    [try], an exception of theirs leaves the routine. *)
Definition solo_pass (v : SoloView) : M LoopState :=
  card_name <- lift (solo_name v) ;;
  balance_text <- lift (solo_value v) ;;
  let bal := parse_balance balance_text in
  trips <- extract_trip_items clk card_name (solo_trips v) ;;
  ret (mkLoopState "" trips (add_balance card_name bal [])).

(** Everything between the login check and the writing of the files. *)
Definition collect (portal : Portal) : M LoopState :=
  let thumbs := match card_thumbs portal with
                | Got l => l
                | Raised => []
                end in
  let num_cards := List.length thumbs in
  log INFO (DetectedCards num_cards) ;;
  match num_cards with
  | O => solo_pass (solo portal)
  | _ => card_loop num_cards thumbs 1%nat (mkLoopState "" [] [])
  end.

Definition balance_document (balances : list Balance) : json :=
  if (List.length balances <=? 1)%nat
  then JObj [ ("balance", match balances with
                          | b :: _ => JFloat (bal_balance b)
                          | [] => JNull
                          end);
              ("currency", JStr "AUD");
              ("card_id", match balances with
                          | b :: _ => json_opt_str (bal_card_id b)
                          | [] => JNull
                          end);
              ("last_updated", JStr (isoformat (sys_now clk))) ]
  else JObj [ ("cards", JArr (map balance_json balances));
              ("last_updated", JStr (isoformat (sys_now clk))) ].

Definition write_outputs (st : LoopState) : M unit :=
  emit (WriteFile "transactions.json"
                  (JArr (map trip_json (all_transactions st)))) ;;
  emit (WriteFile "balance.json" (balance_document (balance_list st))) ;;
  log INFO (SavedTransactions (List.length (all_transactions st))) ;;
  log INFO SavedBalances ;;
  emit BrowserClose.

Definition error_message (p : ErrorProbe) : option string :=
  match p with
  | ErrorText t => Some (strip t)
  | ErrorAbsent => None
  | ErrorRaises => None
  end.

Definition scrape_opal (portal : Portal) (username password : string)
  : M unit :=
  emit BrowserLaunch ;;
  log INFO OpeningLoginPage ;;
  emit (Goto login_url) ;;
  if negb (username_ctrl portal && password_ctrl portal)
  then log ERROR LoginFormNotFound ;; emit BrowserClose
  else
    log INFO FillingLoginForm ;;
    emit (Fill "#usernameCrtl" username) ;;
    emit (Fill "#passwordCtrl" password) ;;
    emit ClickLogin ;;
    log INFO WaitingForLogin ;;
    emit WaitNetworkIdle ;;
    if card_name_shown portal
    then
      log INFO LoginSuccessful ;;
      st <- collect portal ;;
      write_outputs st
    else
      let error_msg := error_message (error_el portal) in
      if still_login portal || truthy error_msg
      then
        log ERROR (LoginFailed
                     (if truthy error_msg then text_of error_msg
                      else "Please check your username or password.")) ;;
        emit BrowserClose
      else
        log ERROR LoginTimeout ;;
        emit BrowserClose.

(** ** Demo mode and [main] *)

Definition sample_transactions : list Trip :=
  [ {| time_local := "2025-11-05T10:47:00+11:00";
       time_utc := "2025-11-04T23:47:00Z";
       amount := neg (lit "22.26");
       currency := "AUD";
       description := "International → Rhodes (Train)";
       card_id := Some "Jack";
       trip_type := "Train";
       tap_on_location := "International";
       tap_off_location := "Rhodes" |};
    {| time_local := "2025-11-05T09:15:00+11:00";
       time_utc := "2025-11-04T22:15:00Z";
       amount := neg (lit "3.20");
       currency := "AUD";
       description := "Rhodes → Meadowbank (Bus)";
       card_id := Some "Work Card";
       trip_type := "Bus";
       tap_on_location := "Rhodes";
       tap_off_location := "Meadowbank" |} ].

Definition sample_cards : list Balance :=
  [ mkBalance (Some "Jack") (lit "9.7") "AUD";
    mkBalance (Some "Work Card") (lit "20.5") "AUD" ].

Definition run_demo : M unit :=
  let sample_balances :=
    JObj [ ("cards", JArr (map balance_json sample_cards));
           ("last_updated", JStr (isoformat (sys_now clk))) ] in
  emit (WriteFile "transactions.json"
                  (JArr (map trip_json sample_transactions))) ;;
  emit (WriteFile "balance.json" sample_balances) ;;
  log INFO DemoWritten.

(** [demo] is the [--demo] flag; the two lines are what the user types
    at the prompts. *)
Definition main (demo : bool) (portal : Portal)
           (username_line password_line : string) : M unit :=
  if demo then run_demo
  else
    emit (Prompt "Enter your Opal username: ") ;;
    let username := strip username_line in
    emit (Prompt "Enter your password: ") ;;
    let password := strip password_line in
    scrape_opal portal username password.

End scrape_opal.


(* ================================================================== *)
(** * Vocabulary of the properties *)

(** The records a list of rows contributes. *)
Definition rows_kept (clk : Clock) (card_name : option string)
           (items : list TripItem) : list Trip :=
  flat_map (fun item => match trip_of_item clk card_name item with
                        | Ok (Some t) => [t]
                        | _ => []
                        end) items.

Definition rows_of (view : TripsView) : list TripItem :=
  match view with
  | TripsTimeout => []
  | TripsRows items => items
  end.

(** Only log lines come out of the extraction. *)
Definition is_log (ev : event) : bool :=
  match ev with
  | Log _ _ => true
  | _ => false
  end.

(** An ordered table of (substring, label): the label of the first
    substring found in [name], "Unknown" when none is. *)
Fixpoint first_match (table : list (string * string)) (name : string)
  : string :=
  match table with
  | [] => "Unknown"
  | (needle, label) :: rest =>
      if contains needle name then label else first_match rest name
  end.

(** The table the [if]/[elif] chain of the source amounts to. *)
Definition icon_table : list (string * string) :=
  [ ("train", "Train"); ("metro", "Metro"); ("bus", "Bus");
    ("ferry", "Ferry"); ("light", "Light Rail"); ("rail", "Light Rail") ].

(** The table as the specification lists it: five substrings, the last
    one "light-rail". *)
Definition spec_icon_table : list (string * string) :=
  [ ("train", "Train"); ("metro", "Metro"); ("bus", "Bus");
    ("ferry", "Ferry"); ("light-rail", "Light Rail") ].

Definition login_ok (portal : Portal) : bool :=
  username_ctrl portal && password_ctrl portal && card_name_shown portal.

Definition thumbs_of (portal : Portal) : list CardThumb :=
  match card_thumbs portal with
  | Got l => l
  | Raised => []
  end.

(** The name the loop gives to [thumb] at position [idx]. *)
Definition label_of (st : LoopState) (idx : nat) (thumb : CardThumb)
  : string :=
  resolve_card_name idx (prev_name st) (fst (sibling_info (sibling thumb)))
                    (name_read thumb) (polls thumb).

(** The balance text the loop parses for [thumb]. *)
Definition balance_text_of (thumb : CardThumb) : option string :=
  if truthy (snd (sibling_info (sibling thumb)))
  then snd (sibling_info (sibling thumb))
  else value_text thumb.

(** The loop state after one thumb. *)
Definition card_after (clk : Clock) (st : LoopState) (idx : nat)
           (thumb : CardThumb) : LoopState :=
  match click_error thumb with
  | Some _ => st
  | None =>
      let card_name := label_of st idx thumb in
      mkLoopState card_name
                  (all_transactions st
                   ++ rows_kept clk (Some card_name)
                                (rows_of (trip_view thumb)))
                  (add_balance (Some card_name)
                               (parse_balance (balance_text_of thumb))
                               (balance_list st))
  end.

Fixpoint loop_after (clk : Clock) (thumbs : list CardThumb) (idx : nat)
         (st : LoopState) : LoopState :=
  match thumbs with
  | [] => st
  | thumb :: rest => loop_after clk rest (S idx) (card_after clk st idx thumb)
  end.

Definition quiet (ev : event) : bool := negb (is_write ev).

(** How the collection ends: the state it reaches, or the exception of
    a read of the page without thumbs. *)
Definition collected (clk : Clock) (portal : Portal) : result LoopState :=
  match thumbs_of portal with
  | [] =>
      match solo_name (solo portal), solo_value (solo portal) with
      | Ok card_name, Ok balance_text =>
          Ok (mkLoopState ""
                (rows_kept clk card_name (rows_of (solo_trips (solo portal))))
                (add_balance card_name (parse_balance balance_text) []))
      | Raise e, _ => Raise e
      | Ok _, Raise e => Raise e
      end
  | thumbs => Ok (loop_after clk thumbs 1%nat (mkLoopState "" [] []))
  end.

(** The balances a run captures: those of the state its collection ends
    in; none when the run stops at the login or the collection raises. *)
Definition captured_balances (clk : Clock) (portal : Portal) : list Balance :=
  if login_ok portal
  then match outcome (collect clk portal) with
       | Ok st => balance_list st
       | Raise _ => []
       end
  else [].

(** A row parses successfully: its date, origin, destination and amount
    elements are all there and the amount text is a number. *)
Definition has_all_fields (item : TripItem) : bool :=
  match date_el item, from_el item, to_el item with
  | Some _, Some _, Some _ =>
      match amount_span_el item, amount_el item with
      | None, None => false
      | _, _ => true
      end
  | _, _, _ => false
  end.

Definition amount_parses (item : TripItem) : bool :=
  match parse_amount
          (strip (text_of (or_else (amount_span_el item) (amount_el item))))
  with
  | Ok _ => true
  | Raise _ => false
  end.

Definition row_parses (item : TripItem) : bool :=
  has_all_fields item && amount_parses item.


Definition clicked (thumb : CardThumb) : bool :=
  match click_error thumb with
  | None => true
  | Some _ => false
  end.



(** The cards a run reports processing: position and label. *)
Definition labels_of (evs : list event) : list (nat * string) :=
  flat_map (fun ev => match ev with
                      | Log _ (ProcessingCard idx _ card _) => [(idx, card)]
                      | _ => []
                      end) evs.

(** [x] is a finite binary64 number within half a unit in the last place
    of [num / den]: the binary64 number nearest to it. *)
Definition nearest_to (x : float) (num den : Z) : bool :=
  match x with
  | S754_finite _ m e =>
      (Zpos (digits2_pos m) =? prec) &&
      (if e <? 0
       then Z.abs (Zpos m * den - num * 2 ^ (- e)) * 2 <=? den
       else Z.abs (Zpos m * 2 ^ e * den - num) * 2 <=? 2 ^ e * den)
  | _ => false
  end.

Ltac split_valid_date V :=
  unfold valid_date in V; cbn [year month day] in V;
  repeat (apply andb_true_iff in V;
          let V' := fresh "V" in destruct V as [V V']);
  repeat match goal with
         | H : (_ <=? _) = true |- _ => apply Z.leb_le in H
         end.

(** What an "HH:MM" text parses to: two fields around one colon, both
    integers, an hour of the day and a minute of the hour. *)
Definition parse_hhmm (time_text : string) : option (Z * Z) :=
  match split ":" time_text with
  | [hh; mm] =>
      match py_int hh, py_int mm with
      | Some h, Some m =>
          if (0 <=? h) && (h <=? 23) && (0 <=? m) && (m <=? 59)
          then Some (h, m)
          else None
      | _, _ => None
      end
  | _ => None
  end.

(* ================================================================== *)
(** * [get_first_visible_text] *)

(** What the page script sees of one element matching the selector.
    [style_raises]: [getComputedStyle] throws for it.  The offsets and
    the inner text are [None] where the element has no such property. *)
Record Element := mkElement {
  style_raises : bool;
  offsetWidth : option Z;
  offsetHeight : option Z;
  visibility : string;
  display : string;
  innerText : option string
}.

(** [s.trim()] of the page script. *)
Definition js_trim (s : string) : string := strip_by js_space s.

(** [x > 0] for a number that may be undefined. *)
Definition positive (x : option Z) : bool :=
  match x with
  | Some n => 0 <? n
  | None => false
  end.

Definition visible (e : Element) : bool :=
  positive (offsetWidth e) && positive (offsetHeight e) &&
  negb (String.eqb (visibility e) "hidden") &&
  negb (String.eqb (display e) "none").

(** The [for] loop of the script: the text of the first element that is
    visible and has a text; an exception inside the [try] moves on to
    the next element. *)
Fixpoint first_visible (els : list Element) : option string :=
  match els with
  | [] => None
  | e :: rest =>
      if style_raises e then first_visible rest
      else if visible e
           then match innerText e with
                | Some t => Some (js_trim t)
                | None => first_visible rest
                end
           else first_visible rest
  end.

(** The script on the elements the selector matches; the last line is
    outside the [try], so an element without inner text makes the
    evaluation fail there. *)
Definition get_first_visible_text (els : list Element)
  : result (option string) :=
  match first_visible els with
  | Some t => Ok (Some t)
  | None =>
      match els with
      | [] => Ok None
      | e :: _ =>
          match innerText e with
          | Some t => Ok (Some (js_trim t))
          | None =>
              Raise (PlaywrightError
                       "TypeError: Cannot read properties of undefined")
          end
      end
  end.

(* ================================================================== *)
(** * Further vocabulary *)

(** A read that ends the wait: not empty and not the previous value. *)
Definition changed (previous_value : string) (v : option string) : bool :=
  truthy v && negb (String.eqb (text_of v) previous_value).

(** A list of bytes starts with a character that [p1], [p2] or [p3]
    recognise. *)
Definition head_token (p1 : ascii -> bool) (p2 : ascii -> ascii -> bool)
           (p3 : ascii -> ascii -> ascii -> bool) (l : list ascii) : bool :=
  match l with
  | [] => false
  | a :: r =>
      p1 a ||
      match r with
      | [] => false
      | b :: r1 =>
          p2 a b ||
          match r1 with
          | [] => false
          | c :: _ => p3 a b c
          end
      end
  end.

(** Positions (from [idx]) of the thumbs whose click succeeds. *)
Fixpoint clicked_positions (thumbs : list CardThumb) (idx : nat) : list nat :=
  match thumbs with
  | [] => []
  | thumb :: rest =>
      if clicked thumb then idx :: clicked_positions rest (S idx)
      else clicked_positions rest (S idx)
  end.




(** The trip types of the data model. *)
Definition trip_types : list string :=
  ["Train"; "Metro"; "Bus"; "Ferry"; "Light Rail"; "Unknown"].



(** The names under which a run reports processing cards. *)
Definition reported_names (evs : list event) : list (option string) :=
  map (fun l => Some (snd l)) (labels_of evs).

(* ================================================================== *)
(** * Worked runs *)

Module Examples.

Definition sample_clock : Clock :=
  mkClock (mkDatetime (mkDate 2025 11 5) 14 3 7 0 None)
          (mkDatetime (mkDate 2025 11 5) 3 3 7 0 None)
          (mkDatetime (mkDate 2025 11 5) 14 3 7 0 None).

Definition bus_row : TripItem :=
  mkTripItem (Some "09:15") (Some "Rhodes") (Some "Meadowbank")
             None (Some "-$3.20") (IconName (Some "bus-icon")).

Definition malformed_row : TripItem :=
  mkTripItem (Some "09:15") (Some "Rhodes") (Some "Meadowbank")
             None (Some "abc") IconAbsent.

Definition headless_row : TripItem :=
  mkTripItem None (Some "Rhodes") (Some "Meadowbank")
             None (Some "-$3.20") IconAbsent.

(** A thumb whose sibling names the card and gives its balance. *)
Definition jack_thumb : CardThumb :=
  mkCardThumb (SiblingText ("Jack" ++ String newline "$9.70")) None 17
              (fun _ => Some "Jack") (Some "$9.70")
              (TripsRows [bus_row; malformed_row; headless_row]).

(** A thumb without sibling, after whose click the page goes on showing
    the previous card's name. *)
Definition stale_thumb : CardThumb :=
  mkCardThumb SiblingAbsent None 17 (fun _ => Some "Jack")
              (Some "$20.50") (TripsRows [bus_row]).

Definition empty_solo : SoloView :=
  mkSoloView (Ok None) (Ok None) TripsTimeout.

Definition two_card_portal : Portal :=
  mkPortal true true true false ErrorAbsent
           (Got [jack_thumb; stale_thumb]) empty_solo.

Definition one_card_portal : Portal :=
  mkPortal true true true false ErrorAbsent (Got [jack_thumb]) empty_solo.

Definition bare_portal : Portal :=
  mkPortal true true true false ErrorAbsent (Got []) empty_solo.

Definition rejecting_portal : Portal :=
  mkPortal true true false true (ErrorText " Invalid credentials ")
           (Got [jack_thumb]) empty_solo.

End Examples.
Import Examples.

Module MoreExamples.

Definition hidden_element : Element :=
  mkElement false (Some 0) (Some 0) "visible" "block" (Some " Hidden ").

Definition shown_element : Element :=
  mkElement false (Some 120) (Some 18) "visible" "block" (Some " Jack ").

Definition failing_thumb : CardThumb :=
  mkCardThumb SiblingAbsent (Some "detached") 17 (fun _ => Some "Jack")
              (Some "$1.00") (TripsRows [bus_row]).

Definition three_card_portal : Portal :=
  mkPortal true true true false ErrorAbsent
           (Got [jack_thumb; failing_thumb; stale_thumb]) empty_solo.

(** A no-break space. *)
Definition nbsp : string := String "194"%char (String "160"%char EmptyString).

(** A row whose amount text starts with a no-break space. *)
Definition padded_row : TripItem :=
  mkTripItem (Some "09:15") (Some "Rhodes") (Some "Meadowbank")
             None (Some (nbsp ++ "-$3.20")%string) IconAbsent.


End MoreExamples.
Import MoreExamples.

(* ================================================================== *)
(** * Properties *)

(** ** Computations: events and outcome of a sequence *)

Lemma events_bind {A B} (m : M A) (k : A -> M B) (a : A) :
  outcome m = Ok a ->
  events (bind m k) = events m ++ events (k a).
Proof.
  destruct m as [evs [x | e]]; simpl; intros H; [ | discriminate ].
  injection H as ->. now destruct (k a).
Qed.

Lemma outcome_bind {A B} (m : M A) (k : A -> M B) (a : A) :
  outcome m = Ok a ->
  outcome (bind m k) = outcome (k a).
Proof.
  destruct m as [evs [x | e]]; simpl; intros H; [ | discriminate ].
  injection H as ->. now destruct (k a).
Qed.

(** ** Text *)

Lemma has_char_In c s :
  has_char c s = true <-> In c (list_ascii_of_string s).
Proof.
  induction s as [ | d r IH ]; simpl.
  - split; [ discriminate | contradiction ].
  - rewrite orb_true_iff, IH, Ascii.eqb_eq. split; intros [H | H]; auto.
Qed.

Lemma has_char_absent c s :
  has_char c s = false <-> ~ In c (list_ascii_of_string s).
Proof.
  split.
  - intros H Hin. apply has_char_In in Hin. congruence.
  - intros H. destruct (has_char c s) eqn:E; [ | reflexivity ].
    exfalso. apply H, has_char_In, E.
Qed.

Section lstrip_with_facts.
Variable p1 : ascii -> bool.
Variable p2 : ascii -> ascii -> bool.
Variable p3 : ascii -> ascii -> ascii -> bool.

(** What is left is the end of the list. *)
Lemma lstrip_with_suffix_upto n : forall l,
  (List.length l <= n)%nat ->
  exists pre, l = pre ++ lstrip_with p1 p2 p3 l.
Proof.
  induction n as [ | n IH ]; intros l H.
  - destruct l; [ exists []; reflexivity | simpl in H; lia ].
  - destruct l as [ | a r ]; [ exists []; reflexivity | ].
    simpl in H. cbn [lstrip_with].
    destruct (p1 a).
    { destruct (IH r ltac:(lia)) as [pre E].
      exists (a :: pre). simpl. now rewrite <- E. }
    destruct r as [ | b r1 ]; [ exists []; reflexivity | ].
    simpl in H. destruct (p2 a b).
    { destruct (IH r1 ltac:(lia)) as [pre E].
      exists (a :: b :: pre). simpl. now rewrite <- E. }
    destruct r1 as [ | c r2 ]; [ exists []; reflexivity | ].
    simpl in H. destruct (p3 a b c); [ | exists []; reflexivity ].
    destruct (IH r2 ltac:(lia)) as [pre E].
    exists (a :: b :: c :: pre). simpl. now rewrite <- E.
Qed.

Lemma lstrip_with_suffix l :
  exists pre, l = pre ++ lstrip_with p1 p2 p3 l.
Proof.
  apply (lstrip_with_suffix_upto (List.length l)). lia.
Qed.

(** What is left starts with no character of the class. *)
Lemma lstrip_with_head_upto n : forall l,
  (List.length l <= n)%nat ->
  head_token p1 p2 p3 (lstrip_with p1 p2 p3 l) = false.
Proof.
  induction n as [ | n IH ]; intros l H.
  - destruct l; [ reflexivity | simpl in H; lia ].
  - destruct l as [ | a r ]; [ reflexivity | ].
    simpl in H. cbn [lstrip_with].
    destruct (p1 a) eqn:E1; [ apply IH; lia | ].
    destruct r as [ | b r1 ]; [ simpl; now rewrite E1 | ].
    simpl in H. destruct (p2 a b) eqn:E2; [ apply IH; lia | ].
    destruct r1 as [ | c r2 ]; [ simpl; now rewrite E1, E2 | ].
    simpl in H. destruct (p3 a b c) eqn:E3; [ apply IH; lia | ].
    simpl. now rewrite E1, E2, E3.
Qed.

Lemma lstrip_with_head l :
  head_token p1 p2 p3 (lstrip_with p1 p2 p3 l) = false.
Proof.
  apply (lstrip_with_head_upto (List.length l)). lia.
Qed.

Lemma lstrip_with_fixed l :
  head_token p1 p2 p3 l = false -> lstrip_with p1 p2 p3 l = l.
Proof.
  destruct l as [ | a r ]; [ reflexivity | ].
  cbn [head_token lstrip_with]. intros H.
  apply orb_false_iff in H. destruct H as [E1 H]. rewrite E1.
  destruct r as [ | b r1 ]; [ reflexivity | ].
  apply orb_false_iff in H. destruct H as [E2 H]. rewrite E2.
  destruct r1 as [ | c r2 ]; [ reflexivity | ]. now rewrite H.
Qed.

Lemma head_token_app l x :
  head_token p1 p2 p3 l = true -> head_token p1 p2 p3 (l ++ x) = true.
Proof.
  destruct l as [ | a r ]; [ discriminate | ].
  cbn [head_token app]. destruct (p1 a); [ reflexivity | ].
  destruct r as [ | b r1 ]; [ discriminate | ].
  cbn [app orb]. destruct (p2 a b); [ reflexivity | ].
  destruct r1 as [ | c r2 ]; [ discriminate | ].
  cbn [app orb]. auto.
Qed.

Lemma lstrip_with_idempotent l :
  lstrip_with p1 p2 p3 (lstrip_with p1 p2 p3 l) = lstrip_with p1 p2 p3 l.
Proof.
  apply lstrip_with_fixed, lstrip_with_head.
Qed.
End lstrip_with_facts.

Section strip_by_facts.
Variable space : N -> bool.

Lemma rstrip_bytes_prefix l :
  exists post, l = rstrip_bytes space l ++ post.
Proof.
  unfold rstrip_bytes.
  destruct (lstrip_with_suffix (space1 space)
                               (fun b a => space2 space a b)
                               (fun c b a => space3 space a b c)
                               (rev l)) as [pre E].
  exists (rev pre). rewrite <- rev_app_distr, <- E. now rewrite rev_involutive.
Qed.

Lemma rstrip_bytes_idempotent l :
  rstrip_bytes space (rstrip_bytes space l) = rstrip_bytes space l.
Proof.
  unfold rstrip_bytes. now rewrite rev_involutive, lstrip_with_idempotent.
Qed.

Lemma strip_bytes_idempotent l :
  let stripped := rstrip_bytes space (lstrip_bytes space l) in
  rstrip_bytes space (lstrip_bytes space stripped) = stripped.
Proof.
  cbv zeta. set (v := lstrip_bytes space l).
  assert (H : lstrip_bytes space (rstrip_bytes space v)
              = rstrip_bytes space v).
  { unfold lstrip_bytes. apply lstrip_with_fixed.
    destruct (head_token (space1 space) (space2 space) (space3 space)
                         (rstrip_bytes space v)) eqn:E; [ | reflexivity ].
    destruct (rstrip_bytes_prefix v) as [post P].
    apply (head_token_app _ _ _ _ post) in E. rewrite <- P in E.
    subst v. unfold lstrip_bytes in E. now rewrite lstrip_with_head in E. }
  rewrite H. apply rstrip_bytes_idempotent.
Qed.

Lemma strip_by_idempotent s :
  strip_by space (strip_by space s) = strip_by space s.
Proof.
  unfold strip_by. rewrite list_ascii_of_string_of_list_ascii.
  f_equal. apply strip_bytes_idempotent.
Qed.

Lemma strip_bytes_In c l :
  In c (rstrip_bytes space (lstrip_bytes space l)) -> In c l.
Proof.
  intros H.
  destruct (lstrip_with_suffix (space1 space) (space2 space) (space3 space) l)
    as [pre E].
  destruct (rstrip_bytes_prefix (lstrip_bytes space l)) as [post P].
  rewrite E. apply in_or_app. right.
  fold (lstrip_bytes space l). rewrite P. apply in_or_app. now left.
Qed.

Lemma has_char_strip_by c s :
  has_char c s = false -> has_char c (strip_by space s) = false.
Proof.
  rewrite !has_char_absent. intros H Hin. apply H.
  unfold strip_by in Hin. rewrite list_ascii_of_string_of_list_ascii in Hin.
  now apply strip_bytes_In in Hin.
Qed.
End strip_by_facts.

Lemma strip_idempotent s : strip (strip s) = strip s.
Proof.
  apply strip_by_idempotent.
Qed.

Lemma js_trim_idempotent s : js_trim (js_trim s) = js_trim s.
Proof.
  apply strip_by_idempotent.
Qed.

Lemma has_char_strip c s : has_char c s = false -> has_char c (strip s) = false.
Proof.
  apply has_char_strip_by.
Qed.

(** An ASCII byte of the decoded text is a byte of the text. *)
Lemma decode_byte_upto x n : forall l,
  (List.length l <= n)%nat -> In (Byte x) (decode l) -> In x l.
Proof.
  induction n as [ | n IH ]; intros l H.
  - destruct l; [ contradiction | simpl in H; lia ].
  - destruct l as [ | a r ]; [ contradiction | ].
    simpl in H. cbn [decode].
    assert (Hr : In (Byte x) (decode r) -> In x (a :: r))
      by (intros Hin; right; apply IH; [ lia | exact Hin ]).
    destruct (byte a <? 128)%N.
    { intros [E | Hin]; [ injection E as ->; now left | auto ]. }
    destruct r as [ | b r1 ];
      [ intros [E | Hin]; [ discriminate | contradiction ] | ].
    simpl in H. destruct (wide2 a b).
    { intros [E | Hin]; [ discriminate | ].
      right. right. apply IH; [ lia | exact Hin ]. }
    destruct r1 as [ | c r2 ];
      [ intros [E | Hin]; [ discriminate | auto ] | ].
    simpl in H. destruct (wide3 a b c).
    { intros [E | Hin]; [ discriminate | ].
      do 3 right. apply IH; [ lia | exact Hin ]. }
    destruct r2 as [ | d r3 ];
      [ intros [E | Hin]; [ discriminate | auto ] | ].
    simpl in H. destruct (wide4 a b c d).
    { intros [E | Hin]; [ discriminate | ].
      do 4 right. apply IH; [ lia | exact Hin ]. }
    intros [E | Hin]; [ discriminate | auto ].
Qed.

Lemma digit_char_not_minus d : digit_char d <> "-"%char.
Proof.
  destruct d as [ | p ]; [ discriminate | ].
  do 4 (destruct p as [p | p | ]; try discriminate).
Qed.

Lemma numeric_ascii_minus us :
  In "-"%char (numeric_ascii us) -> In (Byte "-"%char) us.
Proof.
  induction us as [ | u rest IH ]; [ contradiction | ].
  destruct u as [b | cp | b]; cbn [numeric_ascii].
  - destruct (byte b <? 127)%N.
    + intros [-> | H]; [ now left | right; auto ].
    + intros [E | []]. discriminate.
  - destruct (py_space cp).
    + intros [E | H]; [ discriminate | right; auto ].
    + destruct (decimal_value cp) as [d | ].
      * intros [E | H]; [ now apply digit_char_not_minus in E | right; auto ].
      * intros [E | []]. discriminate.
  - intros [E | []]. discriminate.
Qed.

Lemma has_char_numeric_text s :
  has_char "-" s = false -> has_char "-" (numeric_text s) = false.
Proof.
  unfold numeric_text.
  destruct (forallb (fun a => (byte a <? 128)%N) (list_ascii_of_string s));
    [ auto | ].
  rewrite !has_char_absent. intros H Hin. apply H.
  rewrite list_ascii_of_string_of_list_ascii in Hin.
  apply numeric_ascii_minus in Hin.
  now apply (decode_byte_upto _ (List.length (list_ascii_of_string s))) in Hin.
Qed.

(** ** Rows *)

Lemma row_loop_outcome clk card_name items : forall trips,
  outcome (row_loop clk card_name items trips)
  = Ok (trips ++ rows_kept clk card_name items).
Proof.
  induction items as [ | item rest IH ]; intros trips; simpl.
  - now rewrite app_nil_r.
  - unfold row_step.
    destruct (trip_of_item clk card_name item) as [[t | ] | e]; simpl.
    + specialize (IH (trips ++ [t])).
      destruct (row_loop clk card_name rest (trips ++ [t])) as [evs r].
      simpl in *. now rewrite IH, <- app_assoc.
    + specialize (IH trips).
      destruct (row_loop clk card_name rest trips) as [evs r].
      simpl in *. exact IH.
    + specialize (IH trips).
      destruct (row_loop clk card_name rest trips) as [evs r].
      simpl in *. exact IH.
Qed.

Lemma extract_outcome clk card_name view :
  outcome (extract_trip_items clk card_name view)
  = Ok (rows_kept clk card_name (rows_of view)).
Proof.
  destruct view as [ | items ]; simpl; [ reflexivity | ].
  pose proof (row_loop_outcome clk card_name items []) as H.
  destruct (row_loop clk card_name items []) as [evs r]. exact H.
Qed.

Lemma row_loop_events clk card_name items : forall trips,
  forallb is_log (events (row_loop clk card_name items trips)) = true.
Proof.
  induction items as [ | item rest IH ]; intros trips; simpl; [ reflexivity | ].
  unfold row_step.
  destruct (trip_of_item clk card_name item) as [[t | ] | e]; simpl.
  - specialize (IH (trips ++ [t])).
    now destruct (row_loop clk card_name rest (trips ++ [t])).
  - specialize (IH trips).
    now destruct (row_loop clk card_name rest trips).
  - specialize (IH trips).
    now destruct (row_loop clk card_name rest trips).
Qed.

Lemma extract_events clk card_name view :
  forallb is_log (events (extract_trip_items clk card_name view)) = true.
Proof.
  destruct view as [ | items ]; simpl; [ reflexivity | ].
  pose proof (row_loop_events clk card_name items []) as H.
  now destruct (row_loop clk card_name items []).
Qed.

Lemma trip_of_item_fields clk card_name item t :
  trip_of_item clk card_name item = Ok (Some t) ->
  currency t = "AUD" /\
  description t
  = (tap_on_location t ++ " → " ++ tap_off_location t
     ++ " (" ++ trip_type t ++ ")")%string /\
  card_id t = card_name.
Proof.
  unfold trip_of_item.
  destruct (date_el item), (from_el item), (to_el item),
           (or_else (amount_span_el item) (amount_el item));
    try discriminate.
  destruct (parse_amount (strip s2)) as [amt | e]; simpl; [ | discriminate ].
  destruct (to_utc_and_local clk (strip s)) as [tl tu].
  intros H. injection H as <-. simpl. auto.
Qed.

(** C10. Every trip record that [extract_trip_items] returns has currency
    "AUD" and a description made of its own tap-on location, " → ", its
    tap-off location and its trip type in parentheses; the extraction
    always returns. *)
Theorem extracted_trip_currency_and_description :
  forall clk card_name view,
  exists trips,
    outcome (extract_trip_items clk card_name view) = Ok trips /\
    Forall (fun t =>
              currency t = "AUD" /\
              description t
              = (tap_on_location t ++ " → " ++ tap_off_location t
                 ++ " (" ++ trip_type t ++ ")")%string) trips.
Proof.
  intros clk card_name view.
  exists (rows_kept clk card_name (rows_of view)).
  split; [ apply extract_outcome | ].
  apply Forall_forall. intros t Hin.
  unfold rows_kept in Hin. apply in_flat_map in Hin.
  destruct Hin as [item [_ Hin]].
  destruct (trip_of_item clk card_name item) as [[t' | ] | e] eqn:E;
    simpl in Hin; try contradiction.
  destruct Hin as [-> | []].
  apply trip_of_item_fields in E. tauto.
Qed.

(** ** Trip-type classification *)

Lemma lower_upper_char (c : ascii) : lower_char (upper_char c) = lower_char c.
Proof.
  destruct c as [[] [] [] [] [] [] [] []]; reflexivity.
Qed.

Lemma lower_upper (s : string) : lower (upper s) = lower s.
Proof.
  induction s as [ | c r IH ]; simpl; [ reflexivity | ].
  now rewrite lower_upper_char, IH.
Qed.

Lemma lower_idempotent_char (c : ascii) :
  lower_char (lower_char c) = lower_char c.
Proof.
  destruct c as [[] [] [] [] [] [] [] []]; reflexivity.
Qed.

Lemma lower_idempotent (s : string) : lower (lower s) = lower s.
Proof.
  induction s as [ | c r IH ]; simpl; [ reflexivity | ].
  now rewrite lower_idempotent_char, IH.
Qed.

Lemma classify_first_match (name : string) :
  classify name = first_match icon_table name.
Proof.
  unfold classify, icon_table, first_match.
  destruct (contains "train" name); [ reflexivity | ].
  destruct (contains "metro" name); [ reflexivity | ].
  destruct (contains "bus" name); [ reflexivity | ].
  destruct (contains "ferry" name); [ reflexivity | ].
  destruct (contains "light" name); [ reflexivity | ].
  destruct (contains "rail" name); reflexivity.
Qed.

(** C3, as the code has it.  The trip type is the label of the first
    substring, in the order train, metro, bus, ferry, light, rail, found
    in the lower-cased icon name (the last two both give "Light Rail"),
    and "Unknown" when none is found; letter case of the attribute does
    not matter; "train-icon" gives "Train", "unknown-icon" gives
    "Unknown", and an absent icon, an icon without the attribute or a
    failing icon query give "Unknown". *)
Theorem trip_type_first_match_in_order :
  (forall a,
      trip_type_of (IconName a) = first_match icon_table (lower (text_of a))) /\
  (forall s,
      trip_type_of (IconName (Some (upper s))) = trip_type_of (IconName (Some s)) /\
      trip_type_of (IconName (Some (lower s))) = trip_type_of (IconName (Some s))) /\
  trip_type_of (IconName (Some "train-icon")) = "Train" /\
  trip_type_of (IconName (Some "unknown-icon")) = "Unknown" /\
  trip_type_of IconAbsent = "Unknown" /\
  trip_type_of (IconName None) = "Unknown" /\
  trip_type_of IconRaises = "Unknown".
Proof.
  split; [ | split; [ | repeat split; reflexivity ] ].
  - intros a. apply classify_first_match.
  - intros s. unfold trip_type_of, text_of.
    now rewrite lower_upper, lower_idempotent.
Qed.

(** C3, as the specification words it, fails: the icon name "light" has
    none of the five listed substrings, so the listed table gives
    "Unknown", but the code gives "Light Rail". *)
Lemma trip_type_light_counterexample :
  first_match spec_icon_table (lower "light") = "Unknown" /\
  trip_type_of (IconName (Some "light")) = "Light Rail" /\
  trip_type_of (IconName (Some "light"))
  <> first_match spec_icon_table (lower "light").
Proof.
  repeat split; try reflexivity. discriminate.
Qed.

(** ** The card loop *)

Lemma log_is_quiet evs : forallb is_log evs = true -> forallb quiet evs = true.
Proof.
  induction evs as [ | ev rest IH ]; simpl; [ reflexivity | ].
  intros H. apply andb_true_iff in H. destruct H as [H1 H2].
  rewrite (IH H2), andb_true_r. now destruct ev.
Qed.

Lemma card_step_spec clk n st idx thumb :
  outcome (card_step clk n st idx thumb) = Ok (card_after clk st idx thumb) /\
  forallb quiet (events (card_step clk n st idx thumb)) = true.
Proof.
  unfold card_step, card_after, label_of, balance_text_of, click.
  destruct (sibling_info (sibling thumb)) as [nm bl]. simpl fst. simpl snd.
  destruct (click_error thumb) as [msg | ]; simpl; [ split; reflexivity | ].
  set (name := resolve_card_name idx (prev_name st) nm (name_read thumb)
                                 (polls thumb)).
  pose proof (extract_outcome clk (Some name) (trip_view thumb)) as Ho.
  pose proof (log_is_quiet _ (extract_events clk (Some name) (trip_view thumb)))
    as He.
  destruct (extract_trip_items clk (Some name) (trip_view thumb)) as [evs r].
  simpl in Ho, He. subst r. simpl. split; [ reflexivity | ].
  rewrite app_nil_r. exact He.
Qed.

Lemma card_loop_spec clk n thumbs : forall idx st,
  outcome (card_loop clk n thumbs idx st) = Ok (loop_after clk thumbs idx st) /\
  forallb quiet (events (card_loop clk n thumbs idx st)) = true.
Proof.
  induction thumbs as [ | thumb rest IH ]; intros idx st;
    cbn [card_loop loop_after].
  - split; reflexivity.
  - destruct (card_step_spec clk n st idx thumb) as [Ho He].
    destruct (IH (S idx) (card_after clk st idx thumb)) as [Ho' He'].
    rewrite (outcome_bind _ _ _ Ho), (events_bind _ _ _ Ho).
    split; [ exact Ho' | ]. now rewrite forallb_app, He, He'.
Qed.

Lemma collect_spec clk portal :
  outcome (collect clk portal) = collected clk portal /\
  forallb quiet (events (collect clk portal)) = true.
Proof.
  unfold collect, collected, thumbs_of.
  assert (S : outcome (bind (log INFO (DetectedCards 0))
                            (fun _ => solo_pass clk (solo portal)))
              = match solo_name (solo portal), solo_value (solo portal) with
                | Ok card_name, Ok balance_text =>
                    Ok (mkLoopState ""
                          (rows_kept clk card_name
                                     (rows_of (solo_trips (solo portal))))
                          (add_balance card_name
                                       (parse_balance balance_text) []))
                | Raise e, _ => Raise e
                | Ok _, Raise e => Raise e
                end /\
              forallb quiet
                (events (bind (log INFO (DetectedCards 0))
                              (fun _ => solo_pass clk (solo portal))))
              = true).
  { unfold solo_pass.
    destruct (solo_name (solo portal)) as [card_name | e];
      [ | split; reflexivity ].
    destruct (solo_value (solo portal)) as [balance_text | e];
      [ | split; reflexivity ].
    pose proof (extract_outcome clk card_name (solo_trips (solo portal)))
      as Ho.
    pose proof (log_is_quiet _ (extract_events clk card_name
                                               (solo_trips (solo portal))))
      as He.
    unfold lift. cbn [bind log emit app].
    destruct (extract_trip_items clk card_name (solo_trips (solo portal)))
      as [evs r].
    simpl in Ho, He. subst r. simpl. split; [ reflexivity | ].
    rewrite app_nil_r. exact He. }
  destruct (card_thumbs portal) as [ | [ | thumb rest ] ].
  - exact S.
  - exact S.
  - set (thumbs := thumb :: rest).
    set (n := List.length thumbs).
    replace (match n with
             | 0%nat => solo_pass clk (solo portal)
             | S _ => card_loop clk n thumbs 1 (mkLoopState "" [] [])
             end)
      with (card_loop clk n thumbs 1 (mkLoopState "" [] []))
      by reflexivity.
    destruct (card_loop_spec clk n thumbs 1%nat (mkLoopState "" [] []))
      as [Ho He].
    destruct (card_loop clk n thumbs 1 (mkLoopState "" [] [])) as [evs r].
    simpl in *. subst r. simpl. split; [ reflexivity | exact He ].
Qed.

Lemma writes_to_app path evs1 evs2 :
  writes_to path (evs1 ++ evs2) = writes_to path evs1 ++ writes_to path evs2.
Proof.
  induction evs1 as [ | ev rest IH ]; simpl; [ reflexivity | ].
  destruct ev; try exact IH.
  destruct (String.eqb path0 path); simpl; now rewrite IH.
Qed.

Lemma writes_to_quiet path evs :
  forallb quiet evs = true -> writes_to path evs = [].
Proof.
  induction evs as [ | ev rest IH ]; simpl; [ reflexivity | ].
  intros H. apply andb_true_iff in H. destruct H as [H1 H2].
  destruct ev; try (now apply IH). discriminate.
Qed.

(** A run that gets past the login check: what it emits and how it
    ends. *)
Lemma scrape_opal_events clk portal username password :
  login_ok portal = true ->
  events (scrape_opal clk portal username password)
  = [ BrowserLaunch; Log INFO OpeningLoginPage; Goto login_url;
      Log INFO FillingLoginForm; Fill "#usernameCrtl" username;
      Fill "#passwordCtrl" password; ClickLogin; Log INFO WaitingForLogin;
      WaitNetworkIdle; Log INFO LoginSuccessful ]
    ++ events (collect clk portal)
    ++ match outcome (collect clk portal) with
       | Ok st => events (write_outputs clk st)
       | Raise _ => []
       end /\
  outcome (scrape_opal clk portal username password)
  = match outcome (collect clk portal) with
    | Ok _ => Ok tt
    | Raise e => Raise e
    end.
Proof.
  unfold login_ok, scrape_opal. intros H.
  apply andb_true_iff in H. destruct H as [H1 H3].
  rewrite H1, H3.
  destruct (collect clk portal) as [evs [st | e]]; simpl.
  - split; reflexivity.
  - rewrite app_nil_r. split; reflexivity.
Qed.

Lemma scrape_opal_writes clk portal username password path :
  login_ok portal = true ->
  writes_to path (events (scrape_opal clk portal username password))
  = match outcome (collect clk portal) with
    | Ok st => writes_to path (events (write_outputs clk st))
    | Raise _ => []
    end.
Proof.
  intros H. rewrite (proj1 (scrape_opal_events _ _ _ _ H)).
  rewrite writes_to_app, writes_to_app.
  rewrite (writes_to_quiet path (events (collect clk portal)))
    by apply collect_spec.
  destruct (outcome (collect clk portal)); reflexivity.
Qed.

(** ** Output files *)

Lemma write_outputs_writes clk st :
  writes_to "transactions.json" (events (write_outputs clk st))
  = [JArr (map trip_json (all_transactions st))] /\
  writes_to "balance.json" (events (write_outputs clk st))
  = [balance_document clk (balance_list st)].
Proof.
  split; reflexivity.
Qed.

(** C4. The balances a run captures are those of the state its
    collection ends in.  When a run captures exactly one balance,
    [balance.json] is written once, as the flat object with the fields
    balance, currency, card_id and last_updated, the card_id being that
    of the one balance; when it captures two or more, [balance.json] is
    written once, as an object whose "cards" array has one entry per
    captured balance, in order. *)
Theorem balance_shape_by_count :
  forall clk portal username password,
    let written :=
      writes_to "balance.json"
                (events (scrape_opal clk portal username password)) in
    (login_ok portal = true ->
     forall st, outcome (collect clk portal) = Ok st ->
                captured_balances clk portal = balance_list st) /\
    (forall b, captured_balances clk portal = [b] ->
       written = [ JObj [ ("balance", JFloat (bal_balance b));
                          ("currency", JStr "AUD");
                          ("card_id", json_opt_str (bal_card_id b));
                          ("last_updated",
                           JStr (isoformat (sys_now clk))) ] ]) /\
    ((2 <= List.length (captured_balances clk portal))%nat ->
       exists cards,
         written = [ JObj [ ("cards", JArr cards);
                            ("last_updated",
                             JStr (isoformat (sys_now clk))) ] ] /\
         cards = map balance_json (captured_balances clk portal) /\
         List.length cards = List.length (captured_balances clk portal)).
Proof.
  intros clk portal username password written. subst written.
  unfold captured_balances.
  split.
  { intros -> st ->. reflexivity. }
  destruct (login_ok portal) eqn:L.
  - rewrite (scrape_opal_writes _ _ _ _ _ L).
    destruct (outcome (collect clk portal)) as [st | e].
    + destruct (write_outputs_writes clk st) as [_ ->].
      split.
      * intros b ->. reflexivity.
      * intros H. exists (map balance_json (balance_list st)).
        rewrite length_map. split; [ | split; reflexivity ].
        unfold balance_document.
        destruct (balance_list st) as [ | b1 [ | b2 rest ] ];
          simpl in H; try lia. reflexivity.
    + split; [ intros b H; discriminate | simpl; lia ].
  - split.
    + intros b H. discriminate.
    + simpl. lia.
Qed.



(** ** Transaction count *)






Lemma scrape_opal_login_failed clk portal username password :
  login_ok portal = false ->
  forallb quiet (events (scrape_opal clk portal username password)) = true /\
  outcome (scrape_opal clk portal username password) = Ok tt /\
  last (events (scrape_opal clk portal username password)) BrowserLaunch
  = BrowserClose.
Proof.
  unfold login_ok, scrape_opal. intros L.
  destruct (username_ctrl portal && password_ctrl portal); simpl in *.
  - rewrite L.
    destruct (still_login portal || truthy (error_message (error_el portal)));
      repeat split; reflexivity.
  - repeat split; reflexivity.
Qed.


(** ** Fatal failures *)

(** C7. When the login form does not appear, or when after the login
    attempt the card selector does not appear and a rejection is detected
    (the login form is still visible or an error message is shown), the
    run logs an error, closes the browser as its last action, returns
    normally and writes no file. *)
Theorem fatal_failure_writes_nothing :
  forall clk portal username password,
    username_ctrl portal && password_ctrl portal = false \/
    (username_ctrl portal && password_ctrl portal = true /\
     card_name_shown portal = false /\
     still_login portal || truthy (error_message (error_el portal)) = true) ->
    let run := scrape_opal clk portal username password in
    (exists m,
        In (Log ERROR m) (events run) /\
        (m = LoginFormNotFound \/ exists detail, m = LoginFailed detail)) /\
    last (events run) BrowserLaunch = BrowserClose /\
    outcome run = Ok tt /\
    forallb (fun ev => negb (is_write ev)) (events run) = true /\
    writes_to "transactions.json" (events run) = [] /\
    writes_to "balance.json" (events run) = [].
Proof.
  intros clk portal username password H run.
  assert (L : login_ok portal = false).
  { unfold login_ok. destruct H as [-> | [-> [-> _]]]; reflexivity. }
  destruct (scrape_opal_login_failed clk portal username password L)
    as [Q [O C]].
  fold run in Q, O, C.
  split; [ | repeat split; auto using writes_to_quiet ].
  subst run. unfold scrape_opal.
  destruct H as [-> | [-> [-> ->]]]; simpl.
  - exists LoginFormNotFound. split; [ | now left ]. simpl. tauto.
  - eexists. split; [ | right; eexists; reflexivity ]. simpl.
    do 9 right. left. reflexivity.
Qed.

(** ** Demo mode *)

(** C8. With the demo flag, whatever the portal, the clock and the typed
    lines, the run writes [transactions.json] once, as the array of the
    two fixed trip records, then [balance.json] once, as the object
    whose "cards" array holds the two fixed card entries, logs one line
    and does nothing else: no event of the run touches the browser. *)
Theorem demo_writes_two_records_and_two_cards :
  forall clk portal username_line password_line,
    main clk true portal username_line password_line
    = ([ WriteFile "transactions.json"
           (JArr
              [ JObj [ ("time_local", JStr "2025-11-05T10:47:00+11:00");
                       ("time_utc", JStr "2025-11-04T23:47:00Z");
                       ("amount",
                        JFloat (S754_finite true 6265632981579203 (-48)));
                       ("currency", JStr "AUD");
                       ("description",
                        JStr "International → Rhodes (Train)");
                       ("card_id", JStr "Jack");
                       ("trip_type", JStr "Train");
                       ("tap_on_location", JStr "International");
                       ("tap_off_location", JStr "Rhodes") ];
                JObj [ ("time_local", JStr "2025-11-05T09:15:00+11:00");
                       ("time_utc", JStr "2025-11-04T22:15:00Z");
                       ("amount",
                        JFloat (S754_finite true 7205759403792794 (-51)));
                       ("currency", JStr "AUD");
                       ("description", JStr "Rhodes → Meadowbank (Bus)");
                       ("card_id", JStr "Work Card");
                       ("trip_type", JStr "Bus");
                       ("tap_on_location", JStr "Rhodes");
                       ("tap_off_location", JStr "Meadowbank") ] ]);
         WriteFile "balance.json"
           (JObj
              [ ("cards",
                 JArr
                   [ JObj [ ("card_id", JStr "Jack");
                            ("balance",
                             JFloat (S754_finite false 5460614548186726
                                                 (-49)));
                            ("currency", JStr "AUD") ];
                     JObj [ ("card_id", JStr "Work Card");
                            ("balance",
                             JFloat (S754_finite false 5770237022568448
                                                 (-48)));
                            ("currency", JStr "AUD") ] ]);
                ("last_updated", JStr (isoformat (sys_now clk))) ]);
         Log INFO DemoWritten ],
        Ok tt) /\
    nearest_to (S754_finite true 6265632981579203 (-48)) 2226 100 = true /\
    nearest_to (S754_finite true 7205759403792794 (-51)) 320 100 = true /\
    nearest_to (S754_finite false 5460614548186726 (-49)) 97 10 = true /\
    nearest_to (S754_finite false 5770237022568448 (-48)) 205 10 = true /\
    forallb (fun ev => negb (is_browser ev))
            (events (main clk true portal username_line password_line))
    = true.
Proof.
  intros clk portal username_line password_line.
  repeat split; vm_compute; reflexivity.
Qed.

(** ** Card names *)

Lemma labels_of_app evs1 evs2 :
  labels_of (evs1 ++ evs2) = labels_of evs1 ++ labels_of evs2.
Proof.
  apply flat_map_app.
Qed.

Lemma row_loop_labels clk card_name items : forall trips,
  labels_of (events (row_loop clk card_name items trips)) = [].
Proof.
  induction items as [ | item rest IH ]; intros trips;
    cbn [row_loop]; [ reflexivity | ].
  unfold row_step.
  destruct (trip_of_item clk card_name item) as [[t | ] | e].
  - rewrite (events_bind (ret (trips ++ [t])) _ _ eq_refl). apply IH.
  - rewrite (events_bind (ret trips) _ _ eq_refl). apply IH.
  - rewrite (events_bind (bind (log WARNING (SkippedTripItem e))
                               (fun _ => ret trips)) _ _ eq_refl).
    rewrite labels_of_app, IH. reflexivity.
Qed.

Lemma extract_labels clk card_name view :
  labels_of (events (extract_trip_items clk card_name view)) = [].
Proof.
  destruct view as [ | items ]; [ reflexivity | ].
  unfold extract_trip_items.
  rewrite (events_bind (log INFO (FoundTrips (List.length items) card_name))
                       _ _ eq_refl).
  rewrite labels_of_app, row_loop_labels. reflexivity.
Qed.

Lemma card_step_labels clk n st idx thumb :
  click_error thumb = None ->
  labels_of (events (card_step clk n st idx thumb))
  = [(idx, label_of st idx thumb)].
Proof.
  intros C. unfold card_step, label_of, click.
  destruct (sibling_info (sibling thumb)) as [nm bl]. rewrite C.
  cbn [fst].
  set (name := resolve_card_name idx (prev_name st) nm (name_read thumb)
                                 (polls thumb)).
  pose proof (extract_outcome clk (Some name) (trip_view thumb)) as Ho.
  pose proof (extract_labels clk (Some name) (trip_view thumb)) as Hl.
  destruct (extract_trip_items clk (Some name) (trip_view thumb)) as [evs r].
  simpl in Ho, Hl. subst r. simpl. rewrite labels_of_app, Hl. reflexivity.
Qed.

(** While every read gives the previous name, the wait ends on it. *)
Lemma wait_loop_unchanged read previous_value : forall n k,
  (forall j, (j <= n)%nat -> read (k + j)%nat = Some previous_value) ->
  wait_loop read previous_value n k = Some previous_value.
Proof.
  induction n as [ | n IH ]; intros k H; simpl.
  - rewrite <- (H 0%nat) by lia. f_equal. lia.
  - assert (E : read k = Some previous_value).
    { rewrite <- (H 0%nat) by lia. f_equal. lia. }
    rewrite E. cbn [text_of]. rewrite String.eqb_refl, andb_false_r.
    apply IH. intros j Hj. rewrite <- (H (S j)) by lia. f_equal. lia.
Qed.

(** A wait that gives up returns the read made after the deadline. *)
Lemma wait_loop_result read previous_value : forall n k,
  exists j, (j <= n)%nat /\
            wait_loop read previous_value n k = read (k + j)%nat /\
            (j < n -> truthy (read (k + j)%nat) = true /\
                      text_of (read (k + j)%nat) <> previous_value)%nat.
Proof.
  induction n as [ | n IH ]; intros k; simpl.
  - exists 0%nat. repeat split; try lia. f_equal. lia.
  - destruct (truthy (read k) &&
              negb (String.eqb (text_of (read k)) previous_value)) eqn:E.
    + exists 0%nat. replace (k + 0)%nat with k by lia.
      apply andb_true_iff in E. destruct E as [E1 E2].
      apply negb_true_iff, String.eqb_neq in E2.
      repeat split; auto; lia.
    + destruct (IH (S k)) as [j [Hj [Hr Hc]]].
      exists (S j). replace (k + S j)%nat with (S k + j)%nat by lia.
      repeat split; try lia; try exact Hr; apply Hc; lia.
Qed.

(** C1, as the code has it.  When the click succeeds and the sibling text
    gives no name, the label of the card is: "Card_<idx>" when the text
    the page ends up showing (the single read when no previous name is
    known, else the result of the bounded wait) is absent or empty, that
    text otherwise; in particular, when every read of the wait, the one
    after the deadline included, gives the previous card's non-empty
    name, the label is that previous name. *)
Theorem card_label_after_bounded_wait :
  forall clk n st idx thumb,
    click_error thumb = None ->
    fst (sibling_info (sibling thumb)) = None ->
    let shown :=
      shown_name (prev_name st) (name_read thumb) (polls thumb) in
    exists st' label,
      outcome (card_step clk n st idx thumb) = Ok st' /\
      labels_of (events (card_step clk n st idx thumb)) = [(idx, label)] /\
      prev_name st' = label /\
      (exists j, (j <= polls thumb)%nat /\ shown = name_read thumb j) /\
      (truthy shown = false -> label = "Card_" ++ str_of_nat idx)%string /\
      (truthy shown = true -> label = text_of shown) /\
      (nonempty (prev_name st) = true ->
       (forall k, (k <= polls thumb)%nat ->
                  name_read thumb k = Some (prev_name st)) ->
       label = prev_name st).
Proof.
  intros clk n st idx thumb C S shown.
  exists (card_after clk st idx thumb), (label_of st idx thumb).
  split; [ apply card_step_spec | ].
  split; [ now apply card_step_labels | ].
  split; [ unfold card_after; now rewrite C | ].
  split.
  { subst shown. unfold shown_name, wait_for_value_change.
    destruct (nonempty (prev_name st)).
    - destruct (wait_loop_result (name_read thumb) (prev_name st)
                                 (polls thumb) 0%nat) as [j [Hj [Hr _]]].
      exists j. split; [ exact Hj | exact Hr ].
    - exists 0%nat. split; [ lia | reflexivity ]. }
  unfold label_of, resolve_card_name. rewrite S. cbn [truthy].
  fold shown.
  split; [ intros ->; reflexivity | ].
  split; [ intros ->; reflexivity | ].
  intros P H.
  assert (E : shown = Some (prev_name st)).
  { subst shown. unfold shown_name, wait_for_value_change. rewrite P.
    apply wait_loop_unchanged. intros j Hj. now apply H. }
  rewrite E. cbn [truthy text_of]. now rewrite P.
Qed.

(** ** Amounts *)

Lemma has_char_remove_same c s : has_char c (remove_char c s) = false.
Proof.
  induction s as [ | d r IH ]; simpl; [ reflexivity | ].
  destruct (Ascii.eqb c d) eqn:E; [ exact IH | ].
  simpl. now rewrite E, IH.
Qed.

Lemma has_char_remove c d s :
  has_char c s = false -> has_char c (remove_char d s) = false.
Proof.
  induction s as [ | x r IH ]; simpl; [ reflexivity | ].
  intros H. apply orb_false_iff in H. destruct H as [H1 H2].
  destruct (Ascii.eqb d x); [ now apply IH | ].
  simpl. now rewrite H1, IH.
Qed.

Section ascii_parse_keeps_absence.
Variable c : ascii.

Lemma has_char_c_lstrip s :
  has_char c s = false -> has_char c (c_lstrip s) = false.
Proof.
  induction s as [ | x r IH ]; simpl; [ reflexivity | ].
  intros H. destruct (is_c_space x); [ | exact H ].
  apply orb_false_iff in H. now apply IH.
Qed.

Lemma has_char_c_rstrip s :
  has_char c s = false -> has_char c (c_rstrip s) = false.
Proof.
  induction s as [ | x r IH ]; simpl; [ reflexivity | ].
  intros H. apply orb_false_iff in H. destruct H as [H1 H2].
  specialize (IH H2).
  destruct (c_rstrip r) as [ | y r' ].
  - destruct (is_c_space x); simpl; [ reflexivity | now rewrite H1 ].
  - change (Ascii.eqb c x || has_char c (String y r') = false).
    now rewrite H1, IH.
Qed.

Lemma has_char_drop_underscores s : forall prev t,
  drop_underscores prev s = Some t ->
  has_char c s = false -> has_char c t = false.
Proof.
  induction s as [ | x r IH ]; intros prev t; simpl.
  - destruct (Ascii.eqb prev "_"); [ discriminate | ].
    intros H _. now injection H as <-.
  - intros H Hc. apply orb_false_iff in Hc. destruct Hc as [H1 H2].
    destruct (Ascii.eqb x "_").
    + destruct (is_digit prev); [ | discriminate ]. now apply (IH x).
    + destruct (Ascii.eqb prev "_" && negb (is_digit x)); [ discriminate | ].
      destruct (drop_underscores x r) as [t' | ] eqn:E; [ | discriminate ].
      injection H as <-. simpl. rewrite H1. now apply (IH x).
Qed.
End ascii_parse_keeps_absence.

Lemma take_sign_without_minus s :
  has_char "-" s = false -> fst (take_sign s) = false.
Proof.
  destruct s as [ | c r ]; [ reflexivity | ].
  destruct c as [[] [] [] [] [] [] [] []]; simpl; try reflexivity.
  discriminate.
Qed.

Lemma binary_round_aux_sign sx mx ex lx :
  sign_bit (binary_round_aux prec emax sx mx ex lx) = Some sx \/
  binary_round_aux prec emax sx mx ex lx = S754_nan.
Proof.
  unfold binary_round_aux.
  destruct (shr_fexp prec emax mx ex lx) as [mrs' e'].
  destruct (shr_fexp prec emax _ e' loc_Exact) as [mrs'' e''].
  destruct (shr_m mrs'') as [ | m | m ].
  - now left.
  - destruct (e'' <=? emax - prec); now left.
  - now right.
Qed.

Lemma of_decimal_sign s m e n :
  sign_bit (of_decimal s m e n) = Some s \/ of_decimal s m e n = S754_nan.
Proof.
  unfold of_decimal.
  destruct (m =? 0); [ now left | ].
  destruct (310 <? e); [ now left | ].
  destruct (e + n <? -330); [ now left | ].
  destruct (0 <=? e).
  - destruct (m * 10 ^ e) as [ | p | p ]; try (now left).
    unfold binary_round.
    destruct (shl_align p 0 _) as [mz ez]. apply binary_round_aux_sign.
  - destruct (SFdiv_core_binary prec emax m 0 (10 ^ (- e)) 0) as [[q e'] l].
    apply binary_round_aux_sign.
Qed.

(** A text without a minus sign never reads as a negative number. *)
Lemma py_float_without_minus s x :
  has_char "-" s = false -> py_float s = Some x ->
  sign_bit x = Some false \/ x = S754_nan.
Proof.
  unfold py_float, float_of_ascii. intros Hs.
  pose proof (has_char_numeric_text s Hs) as Hc.
  destruct (drop_underscores "000" (numeric_text s)) as [t | ] eqn:E;
    [ | discriminate ].
  pose proof (has_char_drop_underscores "-" _ _ _ E Hc) as Ht.
  apply has_char_c_lstrip, has_char_c_rstrip in Ht.
  pose proof (take_sign_without_minus _ Ht) as Hsg.
  destruct (take_sign (c_rstrip (c_lstrip t))) as [sg body].
  simpl in Hsg. subst sg.
  destruct (parse_magnitude body) as [[ | | m e n] | ]; simpl;
    intros H; try discriminate; injection H as <-.
  - now left.
  - now right.
  - apply of_decimal_sign.
Qed.

(** C2, as the code has it.  The cleaned amount text has no "$", no ","
    and no "-".  When the parse returns, the magnitude is 0.0 for a
    cleaned text that is empty and the number [float] reads from it
    otherwise, it is not negative, and the result is the magnitude
    negated exactly when the original text has a "-"; when the parse
    raises, it raises ValueError, the cleaned text is not empty and is
    not a number.  "-$22.26" gives the binary64 number nearest to 22.26,
    negated; "$20.50" gives 20.5.  A row whose amount raises is skipped
    by the row loop with one warning. *)
Theorem amount_sign_follows_minus :
  forall amount_text,
    let clean := clean_amount amount_text in
    let debit := has_char "-" amount_text in
    (has_char "$" clean = false /\ has_char "," clean = false /\
     has_char "-" clean = false) /\
    match parse_amount amount_text with
    | Ok amt =>
        exists mag,
          (clean = "" /\ mag = zero \/
           clean <> "" /\ py_float clean = Some mag) /\
          (sign_bit mag = Some false \/ mag = S754_nan) /\
          amt = (if debit then neg mag else mag)
    | Raise e => e = ValueError /\ clean <> "" /\ py_float clean = None
    end /\
    parse_amount "-$22.26" = Ok (S754_finite true 6265632981579203 (-48)) /\
    nearest_to (S754_finite true 6265632981579203 (-48)) 2226 100 = true /\
    parse_amount "$20.50" = Ok (S754_finite false 5770237022568448 (-48)) /\
    nearest_to (S754_finite false 5770237022568448 (-48)) 2050 100 = true /\
    (forall clk card_name trips item e,
        trip_of_item clk card_name item = Raise e ->
        row_step clk card_name trips item
        = ([Log WARNING (SkippedTripItem e)], Ok trips)).
Proof.
  intros amount_text clean debit.
  assert (Hclean : has_char "$" clean = false /\ has_char "," clean = false /\
                   has_char "-" clean = false).
  { subst clean. unfold clean_amount. repeat split; apply has_char_strip.
    - apply has_char_remove, has_char_remove, has_char_remove_same.
    - apply has_char_remove, has_char_remove_same.
    - apply has_char_remove_same. }
  split; [ exact Hclean | ].
  split; [ | split; [ vm_compute; reflexivity | ] ];
    [ | split; [ vm_compute; reflexivity | ] ];
    [ | split; [ vm_compute; reflexivity | ] ];
    [ | split; [ vm_compute; reflexivity | ] ].
  - unfold parse_amount. fold clean. fold debit.
    destruct clean as [ | c r ] eqn:E; cbn [nonempty].
    + simpl. exists zero. split; [ now left | ]. split; [ now left | ].
      reflexivity.
    + destruct (py_float (String c r)) as [mag | ] eqn:F; simpl.
      * exists mag. split; [ right; split; [ discriminate | reflexivity ] | ].
        split; [ | reflexivity ].
        apply (py_float_without_minus (String c r)); [ apply Hclean | exact F ].
      * repeat split. discriminate.
  - intros clk card_name trips item e H. unfold row_step. now rewrite H.
Qed.

(** C2, as the specification words it, fails on text that is not a
    number: the amount "abc" is not parsed as 0.0, [float] raises
    ValueError, and a row with that amount yields a warning and no
    record. *)
Lemma amount_malformed_counterexample :
  clean_amount "abc" = "abc" /\
  py_float "abc" = None /\
  parse_amount "abc" = Raise ValueError /\
  row_step (mkClock (mkDatetime (mkDate 2025 11 5) 14 3 7 0 None)
                    (mkDatetime (mkDate 2025 11 5) 3 3 7 0 None)
                    (mkDatetime (mkDate 2025 11 5) 3 3 7 0 None))
           (Some "Jack") []
           (mkTripItem (Some "09:15") (Some "Rhodes") (Some "Meadowbank")
                       None (Some "abc") IconAbsent)
  = ([Log WARNING (SkippedTripItem ValueError)], Ok []).
Proof.
  repeat split; vm_compute; reflexivity.
Qed.

(** ** Time conversion *)

Lemma days_before_year_succ y :
  days_before_year (y + 1)
  = days_before_year y + (if is_leap y then 366 else 365).
Proof.
  unfold days_before_year, is_leap.
  replace (y + 1 - 1) with y by lia.
  destruct (Z.eqb_spec (y mod 4) 0), (Z.eqb_spec (y mod 100) 0),
           (Z.eqb_spec (y mod 400) 0); cbn [negb andb orb];
    Z.div_mod_to_equations; lia.
Qed.

Lemma days_before_month_succ y m :
  1 <= m <= 12 ->
  days_before_month y (m + 1) = days_before_month y m + days_in_month y m.
Proof.
  intros H. unfold days_before_month.
  replace (Z.to_nat (m + 1 - 1)) with (S (Z.to_nat (m - 1))) by lia.
  cbn [days_before_month_aux]. do 2 f_equal. lia.
Qed.

Lemma days_before_month_13 y :
  days_before_month y 13 = if is_leap y then 366 else 365.
Proof.
  cbv -[is_leap]. destruct (is_leap y); reflexivity.
Qed.

Lemma toordinal_prev_day d d' :
  valid_date d = true -> prev_day d = Some d' ->
  toordinal d' = toordinal d - 1.
Proof.
  destruct d as [y m dd]. intros V. split_valid_date V.
  unfold prev_day, toordinal. cbn [year month day].
  destruct (Z.ltb_spec 1 dd) as [L1 | L1].
  { intros H. injection H as <-. cbn [year month day]. lia. }
  destruct (Z.ltb_spec 1 m) as [L2 | L2].
  { intros H. injection H as <-. cbn [year month day].
    pose proof (days_before_month_succ y (m - 1)) as E.
    replace (m - 1 + 1) with m in E by lia. rewrite E by lia. lia. }
  destruct (Z.ltb_spec 1 y) as [L9 | L9]; [ | discriminate ].
  intros H. injection H as <-. cbn [year month day].
  assert (m = 1) by lia. subst m.
  pose proof (days_before_year_succ (y - 1)) as E.
  replace (y - 1 + 1) with y in E by lia. rewrite E.
  pose proof (days_before_month_13 (y - 1)) as E13.
  change 13 with (12 + 1) in E13.
  rewrite (days_before_month_succ (y - 1) 12) in E13 by lia.
  change (days_in_month (y - 1) 12) with 31 in E13.
  change (days_before_month y 1) with 0. lia.
Qed.

Lemma toordinal_next_day d d' :
  valid_date d = true -> next_day d = Some d' ->
  toordinal d' = toordinal d + 1.
Proof.
  destruct d as [y m dd]. intros V. split_valid_date V.
  unfold next_day, toordinal. cbn [year month day].
  destruct (Z.ltb_spec dd (days_in_month y m)) as [L3 | L3].
  { intros H. injection H as <-. cbn [year month day]. lia. }
  destruct (Z.ltb_spec m 12) as [L4 | L4].
  { intros H. injection H as <-. cbn [year month day].
    rewrite days_before_month_succ by lia. lia. }
  destruct (Z.ltb_spec y 9999) as [L9 | L9]; [ | discriminate ].
  intros H. injection H as <-. cbn [year month day].
  assert (m = 12) by lia. subst m.
  rewrite days_before_year_succ.
  pose proof (days_before_month_13 y) as E13.
  change 13 with (12 + 1) in E13.
  rewrite (days_before_month_succ y 12) in E13 by lia.
  change (days_before_month (y + 1) 1) with 0. lia.
Qed.

(** Moving to UTC keeps the instant. *)
Lemma astimezone_utc_instant t u o :
  valid_date (on t) = true ->
  tz t = Some o ->
  -1440 <= hour t * 60 + minute t - o < 2880 ->
  astimezone_utc t = Ok u ->
  instant u = instant t /\ tz u = Some 0.
Proof.
  intros V Z R. unfold astimezone_utc, instant. rewrite Z.
  set (total := hour t * 60 + minute t - o) in *.
  pose proof (Z.div_mod (total mod 1440) 60 ltac:(lia)) as D.
  destruct (Z.ltb_spec total 0) as [L1 | L1].
  - destruct (prev_day (on t)) as [d' | ] eqn:P; [ | discriminate ].
    intros H. injection H as <-. cbn [on hour minute second microsecond tz].
    split; [ | reflexivity ].
    rewrite (toordinal_prev_day _ _ V P).
    assert (total mod 1440 = total + 1440)
      by (symmetry; apply (Z.mod_unique total 1440 (-1)); lia).
    subst total. lia.
  - destruct (Z.ltb_spec total 1440) as [L2 | L2].
    + intros H. injection H as <-. cbn [on hour minute second microsecond tz].
      split; [ | reflexivity ].
      rewrite (Z.mod_small total 1440) in * by lia. subst total. lia.
    + destruct (next_day (on t)) as [d' | ] eqn:P; [ | discriminate ].
      intros H. injection H as <-. cbn [on hour minute second microsecond tz].
      split; [ | reflexivity ].
      rewrite (toordinal_next_day _ _ V P).
      assert (total mod 1440 = total - 1440)
        by (symmetry; apply (Z.mod_unique total 1440 1); lia).
      subst total. lia.
Qed.

Lemma convert_time_parse_failure clk time_text :
  parse_hhmm time_text = None ->
  exists e, convert_time clk time_text = Raise e.
Proof.
  unfold parse_hhmm, convert_time.
  destruct (split ":" time_text) as [ | hh [ | mm [ | x rest ] ] ];
    try (intros _; eexists; reflexivity).
  cbn [rbind fst snd].
  destruct (py_int hh) as [h | ]; [ | intros _; eexists; reflexivity ].
  destruct (py_int mm) as [m | ]; [ | intros _; eexists; reflexivity ].
  cbn [or_raise rbind]. unfold replace_hm.
  destruct ((0 <=? h) && (h <=? 23) && (0 <=? m) && (m <=? 59));
    [ discriminate | intros _; eexists; reflexivity ].
Qed.
(** The conversion of a text that parses as hour [h] and minute [m]. *)
Lemma convert_time_parsed clk time_text h m :
  parse_hhmm time_text = Some (h, m) ->
  valid_date (on (local_now clk)) = true ->
  11 <= h \/ on (local_now clk) <> mkDate 1 1 1 ->
  exists utc_date,
    convert_time clk time_text
    = Ok (mkDatetime (on (local_now clk)) h m 0 0 (Some (11 * 60)),
          mkDatetime utc_date ((h + 13) mod 24) m 0 0 (Some 0)) /\
    (11 <= h -> utc_date = on (local_now clk)) /\
    (h < 11 -> prev_day (on (local_now clk)) = Some utc_date) /\
    0 <= h <= 23 /\ 0 <= m <= 59.
Proof.
  intros P V N.
  unfold parse_hhmm in P. unfold convert_time.
  destruct (split ":" time_text) as [ | hh [ | mm [ | x rest ] ] ];
    try discriminate.
  cbn [rbind fst snd].
  destruct (py_int hh) as [h' | ]; [ | discriminate ].
  destruct (py_int mm) as [m' | ]; [ | discriminate ].
  cbn [or_raise rbind]. unfold replace_hm, in_zone. cbn [on tz].
  destruct ((0 <=? h') && (h' <=? 23) && (0 <=? m') && (m' <=? 59)) eqn:R;
    [ | discriminate ].
  injection P as -> ->.
  apply andb_true_iff in R. destruct R as [R R4].
  apply andb_true_iff in R. destruct R as [R R3].
  apply andb_true_iff in R. destruct R as [R1 R2].
  apply Z.leb_le in R1, R2, R3, R4.
  cbn [rbind]. unfold astimezone_utc. cbn [tz hour minute on second microsecond].
  change local_zone with 660. change (11 * 60) with 660.
  destruct (Z.ltb_spec (h * 60 + m - 660) 0) as [L | L].
  - assert (Hlt : h < 11) by lia.
    destruct (prev_day (on (local_now clk))) as [d | ] eqn:PD.
    + exists d. cbn [option_map or_raise rbind].
      assert (E : (h * 60 + m - 660) mod 1440 = (h + 13) * 60 + m)
        by (symmetry; apply (Z.mod_unique _ 1440 (-1)); lia).
      rewrite E.
      assert (E1 : ((h + 13) * 60 + m) / 60 = (h + 13) mod 24).
      { rewrite (Z.mod_small (h + 13) 24) by lia.
        symmetry. apply (Z.div_unique _ 60 _ m); lia. }
      assert (E2 : ((h + 13) * 60 + m) mod 60 = m)
        by (symmetry; apply (Z.mod_unique _ 60 (h + 13)); lia).
      rewrite E1, E2. repeat split; auto; lia.
    + exfalso. destruct N as [N | N]; [ lia | ]. apply N.
      unfold prev_day in PD.
      destruct (on (local_now clk)) as [y mo d].
      cbn [year month day] in *. split_valid_date V.
      destruct (Z.ltb_spec 1 d); [ discriminate | ].
      destruct (Z.ltb_spec 1 mo); [ discriminate | ].
      destruct (Z.ltb_spec 1 y); [ discriminate | ].
      f_equal; lia.
  - assert (Hge : 11 <= h) by lia.
    destruct (Z.ltb_spec (h * 60 + m - 660) 1440) as [L2 | L2]; [ | lia ].
    exists (on (local_now clk)). cbn [rbind].
    rewrite (Z.mod_small (h * 60 + m - 660) 1440) by lia.
    assert (E1 : (h * 60 + m - 660) / 60 = (h + 13) mod 24).
    { replace (h + 13) with (h - 11 + 1 * 24) by lia.
      rewrite Z.mod_add by lia. rewrite (Z.mod_small (h - 11) 24) by lia.
      symmetry. apply (Z.div_unique _ 60 _ m); lia. }
    assert (E2 : (h * 60 + m - 660) mod 60 = m)
      by (symmetry; apply (Z.mod_unique _ 60 (h - 11)); lia).
    rewrite E1, E2. repeat split; auto; lia.
Qed.

(** C6.  A text that parses as hour [h] and minute [m] is taken as the
    wall-clock time [h]:[m]:00 at offset +11:00 on the current local
    date; the UTC timestamp is the same instant at offset +00:00, its
    wall clock eleven hours behind: hour [(h + 13) mod 24], the same
    minute, on the same date from 11:00 on and on the day before
    earlier (0001-01-01 before 11:00, which has no day before, apart).
    For "09:15" that is 09:15:00+11:00 and 22:15:00+00:00 on the day
    before.  For a text that does not parse as hour and minute, both
    fields are the ISO text of the current UTC time. *)
Theorem time_conversion_eleven_hours :
  forall clk,
    (forall time_text h m,
        parse_hhmm time_text = Some (h, m) ->
        valid_date (on (local_now clk)) = true ->
        11 <= h \/ on (local_now clk) <> mkDate 1 1 1 ->
        exists local_time utc_time,
          convert_time clk time_text = Ok (local_time, utc_time) /\
          to_utc_and_local clk time_text
          = (isoformat local_time, isoformat utc_time) /\
          on local_time = on (local_now clk) /\
          hour local_time = h /\ minute local_time = m /\
          second local_time = 0 /\ microsecond local_time = 0 /\
          tz local_time = Some (11 * 60) /\
          hour utc_time = (h + 13) mod 24 /\ minute utc_time = m /\
          second utc_time = 0 /\ microsecond utc_time = 0 /\
          tz utc_time = Some 0 /\
          (11 <= h -> on utc_time = on local_time) /\
          (h < 11 -> prev_day (on local_time) = Some (on utc_time)) /\
          instant local_time = instant utc_time /\
          wall_minutes local_time - wall_minutes utc_time = 11 * 60) /\
    (valid_date (on (local_now clk)) = true ->
     on (local_now clk) <> mkDate 1 1 1 ->
     exists local_time utc_time,
       convert_time clk "09:15" = Ok (local_time, utc_time) /\
       to_utc_and_local clk "09:15"
       = (isoformat local_time, isoformat utc_time) /\
       on local_time = on (local_now clk) /\
       hour local_time = 9 /\ minute local_time = 15 /\
       second local_time = 0 /\ microsecond local_time = 0 /\
       tz local_time = Some (11 * 60) /\
       prev_day (on local_time) = Some (on utc_time) /\
       hour utc_time = 22 /\ minute utc_time = 15 /\
       second utc_time = 0 /\ microsecond utc_time = 0 /\
       tz utc_time = Some 0 /\
       instant local_time = instant utc_time /\
       wall_minutes local_time - wall_minutes utc_time = 11 * 60) /\
    (forall time_text,
        parse_hhmm time_text = None ->
        to_utc_and_local clk time_text
        = (isoformat (in_zone 0 (utc_now clk)),
           isoformat (in_zone 0 (utc_now clk)))).
Proof.
  intros clk.
  assert (G : forall time_text h m,
             parse_hhmm time_text = Some (h, m) ->
             valid_date (on (local_now clk)) = true ->
             11 <= h \/ on (local_now clk) <> mkDate 1 1 1 ->
             exists local_time utc_time,
               convert_time clk time_text = Ok (local_time, utc_time) /\
               to_utc_and_local clk time_text
               = (isoformat local_time, isoformat utc_time) /\
               on local_time = on (local_now clk) /\
               hour local_time = h /\ minute local_time = m /\
               second local_time = 0 /\ microsecond local_time = 0 /\
               tz local_time = Some (11 * 60) /\
               hour utc_time = (h + 13) mod 24 /\ minute utc_time = m /\
               second utc_time = 0 /\ microsecond utc_time = 0 /\
               tz utc_time = Some 0 /\
               (11 <= h -> on utc_time = on local_time) /\
               (h < 11 -> prev_day (on local_time) = Some (on utc_time)) /\
               instant local_time = instant utc_time /\
               wall_minutes local_time - wall_minutes utc_time = 11 * 60).
  { intros time_text h m P V N.
    destruct (convert_time_parsed clk time_text h m P V N)
      as (d & C & Hge & Hlt & Hh & Hm).
    eexists _, _. split; [ exact C | ].
    split; [ unfold to_utc_and_local; now rewrite C | ].
    cbn [on hour minute second microsecond tz].
    repeat split; auto.
    - unfold instant. cbn [on hour minute second microsecond tz].
      destruct (Z_lt_le_dec h 11) as [L | L].
      + rewrite (toordinal_prev_day _ _ V (Hlt L)).
        rewrite (Z.mod_small (h + 13) 24) by lia. lia.
      + rewrite (Hge L).
        replace (h + 13) with (h - 11 + 1 * 24) by lia.
        rewrite Z.mod_add by lia. rewrite (Z.mod_small (h - 11) 24) by lia.
        lia.
    - unfold wall_minutes. cbn [on hour minute].
      destruct (Z_lt_le_dec h 11) as [L | L].
      + rewrite (toordinal_prev_day _ _ V (Hlt L)).
        rewrite (Z.mod_small (h + 13) 24) by lia. lia.
      + rewrite (Hge L).
        replace (h + 13) with (h - 11 + 1 * 24) by lia.
        rewrite Z.mod_add by lia. rewrite (Z.mod_small (h - 11) 24) by lia.
        lia. }
  split; [ exact G | split ].
  - intros V N.
    assert (P : parse_hhmm "09:15" = Some (9, 15))
      by (vm_compute; reflexivity).
    destruct (G "09:15" 9 15 P V (or_intror N))
      as (l & u & H1 & H2 & H3 & H4 & H5 & H6 & H7 & H8 & H9 & H10 & H11
          & H12 & H13 & H14 & H15 & H16 & H17).
    exists l, u. change ((9 + 13) mod 24) with 22 in H9.
    repeat split; auto. apply H15. lia.
  - intros time_text F.
    destruct (convert_time_parse_failure clk time_text F) as [e E].
    unfold to_utc_and_local. now rewrite E.
Qed.

(** ** Worked runs *)

(** C1, as the specification words it, fails: the second thumb has no
    sibling text and every read of the card name after its click gives
    the first card's name "Jack"; the loop labels it "Jack", not
    "Card_2". *)
Lemma card_label_stale_counterexample :
  fst (sibling_info (sibling stale_thumb)) = None /\
  (forall k, name_read stale_thumb k = Some "Jack") /\
  labels_of (events (card_step sample_clock 2 (mkLoopState "Jack" [] [])
                               2 stale_thumb))
  = [(2%nat, "Jack")] /\
  labels_of (events (scrape_opal sample_clock two_card_portal
                                 "user" "secret"))
  = [(1%nat, "Jack"); (2%nat, "Jack")] /\
  String.eqb "Jack" ("Card_" ++ str_of_nat 2) = false.
Proof.
  repeat split; vm_compute; reflexivity.
Qed.

(** The label of a thumb without sibling text whose page keeps showing
    "Jack" after the card "Jack". *)
Lemma card_label_after_bounded_wait_witness :
  exists st' label,
    outcome (card_step sample_clock 2 (mkLoopState "Jack" [] [])
                       2 stale_thumb) = Ok st' /\
    labels_of (events (card_step sample_clock 2 (mkLoopState "Jack" [] [])
                                 2 stale_thumb)) = [(2%nat, label)] /\
    label = "Jack".
Proof.
  destruct (card_label_after_bounded_wait
              sample_clock 2 (mkLoopState "Jack" [] []) 2 stale_thumb
              eq_refl eq_refl)
    as [st' [label [H1 [H2 [_ [_ [_ [_ H3]]]]]]]].
  exists st', label.
  split; [ exact H1 | ]. split; [ exact H2 | ].
  apply H3; [ reflexivity | intros k _; reflexivity ].
Defined.

(** The row with amount "abc" is skipped with a warning. *)
Lemma amount_sign_follows_minus_witness :
  row_step sample_clock (Some "Jack") [] malformed_row
  = ([Log WARNING (SkippedTripItem ValueError)], Ok []).
Proof.
  apply (proj2 (proj2 (proj2 (proj2 (proj2 (proj2
           (amount_sign_follows_minus "abc"))))))).
  reflexivity.
Defined.

(** Amounts, balances and times written with characters beyond ASCII
    are read as the interpreter reads them. *)
Lemma unicode_text_examples :
  parse_amount ("$" ++ nbsp ++ "3.20")%string
  = Ok (S754_finite false 7205759403792794 (-51)) /\
  parse_amount "$٣.٥٠" = Ok (S754_finite false 7881299347898368 (-51)) /\
  parse_amount (strip (nbsp ++ "-$3.20")%string)
  = Ok (S754_finite true 7205759403792794 (-51)) /\
  row_parses padded_row = true /\
  parse_balance (Some ("$" ++ nbsp ++ "9.70")%string)
  = Some (S754_finite false 5460614548186726 (-49)) /\
  parse_hhmm "٠٩:١٥" = Some (9, 15) /\
  strip (nbsp ++ "Jack" ++ nbsp)%string = "Jack" /\
  js_trim (nbsp ++ "Jack" ++ nbsp)%string = "Jack" /\
  parse_card_info_from_text
    (nbsp ++ "Jack" ++ nbsp ++ String newline " $9.70")%string
  = (Some "Jack", Some "$9.70").
Proof.
  repeat split; vm_compute; reflexivity.
Qed.

(** One card gives the flat object, two cards give the array. *)
Lemma balance_shape_by_count_witness :
  writes_to "balance.json"
            (events (scrape_opal sample_clock one_card_portal
                                 "user" "secret"))
  = [ JObj [ ("balance", JFloat (lit "9.7"));
             ("currency", JStr "AUD");
             ("card_id", JStr "Jack");
             ("last_updated", JStr (isoformat (sys_now sample_clock))) ] ] /\
  exists cards,
    writes_to "balance.json"
              (events (scrape_opal sample_clock two_card_portal
                                   "user" "secret"))
    = [ JObj [ ("cards", JArr cards);
               ("last_updated", JStr (isoformat (sys_now sample_clock))) ] ] /\
    cards = map balance_json (captured_balances sample_clock two_card_portal) /\
    List.length cards
    = List.length (captured_balances sample_clock two_card_portal).
Proof.
  split.
  - apply (proj1 (proj2 (balance_shape_by_count sample_clock one_card_portal
                                                "user" "secret"))
                 (mkBalance (Some "Jack") (lit "9.7") "AUD")).
    vm_compute. reflexivity.
  - apply (proj2 (proj2 (balance_shape_by_count sample_clock two_card_portal
                                                "user" "secret"))).
    vm_compute. apply le_n.
Defined.


(** "09:15" read on 2025-11-05. *)
Lemma time_conversion_eleven_hours_witness :
  exists local_time utc_time,
    to_utc_and_local sample_clock "09:15"
    = (isoformat local_time, isoformat utc_time) /\
    isoformat local_time = "2025-11-05T09:15:00+11:00" /\
    isoformat utc_time = "2025-11-04T22:15:00+00:00" /\
    instant local_time = instant utc_time.
Proof.
  destruct (proj1 (proj2 (time_conversion_eleven_hours sample_clock)) eq_refl)
    as (l & u & H1 & H2 & H3 & H4 & H5 & H6 & H7 & H8 & H9 & H10 & H11
        & H12 & H13 & H14 & H15 & H16).
  { discriminate. }
  exists l, u. split; [ exact H2 | ].
  assert (El : l = mkDatetime (mkDate 2025 11 5) 9 15 0 0 (Some 660)).
  { destruct l as [d h m s us z]. cbn in *. now subst. }
  assert (Eu : u = mkDatetime (mkDate 2025 11 4) 22 15 0 0 (Some 0)).
  { destruct u as [d h m s us z]. cbn in *. subst.
    injection H9 as <-. reflexivity. }
  split; [ now rewrite El | ]. split; [ now rewrite Eu | exact H15 ].
Defined.

(** A run whose credentials are rejected. *)
Lemma fatal_failure_writes_nothing_witness :
  In (Log ERROR (LoginFailed "Invalid credentials"))
     (events (scrape_opal sample_clock rejecting_portal "user" "secret")) /\
  last (events (scrape_opal sample_clock rejecting_portal "user" "secret"))
       BrowserLaunch = BrowserClose /\
  writes_to "transactions.json"
            (events (scrape_opal sample_clock rejecting_portal
                                 "user" "secret")) = [] /\
  writes_to "balance.json"
            (events (scrape_opal sample_clock rejecting_portal
                                 "user" "secret")) = [].
Proof.
  destruct (fatal_failure_writes_nothing
              sample_clock rejecting_portal "user" "secret"
              (or_intror (conj eq_refl (conj eq_refl eq_refl))))
    as [_ [H1 [_ [_ [H2 H3]]]]].
  split; [ | split; [ exact H1 | split; [ exact H2 | exact H3 ] ] ].
  vm_compute. tauto.
Defined.



(* ================================================================== *)
(** * Further properties *)

(** ** [wait_for_value_change] *)

Lemma wait_loop_first_change read previous_value : forall n k,
  exists j,
    (j <= n)%nat /\
    wait_loop read previous_value n k = read (k + j)%nat /\
    (forall i, (i < j)%nat -> changed previous_value (read (k + i)%nat) = false) /\
    ((j < n)%nat -> changed previous_value (read (k + j)%nat) = true).
Proof.
  induction n as [ | n IH ]; intros k; simpl.
  - exists 0%nat. repeat split; try lia. f_equal. lia.
  - fold (changed previous_value (read k)).
    destruct (changed previous_value (read k)) eqn:E.
    + exists 0%nat. replace (k + 0)%nat with k by lia.
      repeat split; auto; lia.
    + destruct (IH (S k)) as [j [Hj [Hr [Hb Hc]]]].
      exists (S j). replace (k + S j)%nat with (S k + j)%nat by lia.
      repeat split; try lia; try exact Hr.
      * intros i Hi. destruct i as [ | i ].
        -- now replace (k + 0)%nat with k by lia.
        -- replace (k + S i)%nat with (S k + i)%nat by lia. apply Hb. lia.
      * intros H. apply Hc. lia.
Qed.

(** X1. [wait_for_value_change] returns one of the reads it makes: the
    first of the polled reads that is not empty and differs from the
    previous value, all reads before it being empty or equal to the
    previous value; when no polled read qualifies, the read made after
    the deadline.  It makes at most [polls + 1] reads. *)
Theorem wait_for_value_change_first_change :
  forall read previous_value polls,
  exists j,
    (j <= polls)%nat /\
    wait_for_value_change read previous_value polls = read j /\
    (forall i, (i < j)%nat -> changed previous_value (read i) = false) /\
    ((j < polls)%nat -> changed previous_value (read j) = true).
Proof.
  intros read previous_value polls.
  destruct (wait_loop_first_change read previous_value polls 0)
    as [j [Hj [Hr [Hb Hc]]]].
  exists j. repeat split; auto.
Qed.

(** ** [get_first_visible_text] *)

Lemma first_visible_skips hidden : forall rest,
  Forall (fun e => style_raises e = true \/ visible e = false \/
                   innerText e = None) hidden ->
  first_visible (hidden ++ rest) = first_visible rest.
Proof.
  induction hidden as [ | e more IH ]; intros rest H; [ reflexivity | ].
  inversion H as [ | ? ? He Hmore ]; subst. simpl.
  rewrite (IH rest Hmore).
  destruct He as [-> | [He | He]]; [ reflexivity | | ].
  - rewrite He. now destruct (style_raises e).
  - rewrite He. now destruct (style_raises e), (visible e).
Qed.

(** X2. The first element that is visible (positive width and height,
    visibility not "hidden", display not "none", computed style
    available) and has a text decides the result: its trimmed text is
    returned whatever comes after it, the elements before it that are
    not visible, whose style cannot be computed or that have no text
    being passed over. *)
Theorem first_visible_element_wins :
  forall hidden e t rest,
    Forall (fun h => style_raises h = true \/ visible h = false \/
                     innerText h = None) hidden ->
    style_raises e = false -> visible e = true -> innerText e = Some t ->
    get_first_visible_text (hidden ++ e :: rest) = Ok (Some (js_trim t)).
Proof.
  intros hidden e t rest H S V T. unfold get_first_visible_text.
  rewrite (first_visible_skips hidden (e :: rest) H). simpl.
  now rewrite S, V, T.
Qed.

Lemma first_visible_trimmed els t :
  first_visible els = Some t -> js_trim t = t.
Proof.
  induction els as [ | e rest IH ]; simpl; [ discriminate | ].
  destruct (style_raises e); [ exact IH | ].
  destruct (visible e); [ | exact IH ].
  destruct (innerText e) as [x | ]; [ | exact IH ].
  intros H. injection H as <-. apply js_trim_idempotent.
Qed.

(** X3. [get_first_visible_text] gives no text exactly when the selector
    matches nothing; when no element qualifies as visible it falls back
    to the text of the first match, and fails only if that element has
    no inner text; any text it returns is trimmed. *)
Theorem first_visible_text_fallback :
  forall els,
    (get_first_visible_text els = Ok None <-> els = []) /\
    (forall e rest t,
        els = e :: rest -> first_visible els = None ->
        innerText e = Some t ->
        get_first_visible_text els = Ok (Some (js_trim t))) /\
    (forall x, get_first_visible_text els = Raise x ->
               exists e rest, els = e :: rest /\ innerText e = None /\
                              first_visible els = None) /\
    (forall t, get_first_visible_text els = Ok (Some t) -> js_trim t = t).
Proof.
  intros els. unfold get_first_visible_text. repeat split.
  - destruct (first_visible els); [ discriminate | ].
    destruct els as [ | e rest ]; [ reflexivity | ].
    destruct (innerText e); discriminate.
  - intros ->. reflexivity.
  - intros e rest t -> -> ->. reflexivity.
  - intros x. destruct (first_visible els) eqn:F; [ discriminate | ].
    destruct els as [ | e rest ]; [ discriminate | ].
    destruct (innerText e) eqn:T; [ discriminate | ].
    intros _. exists e, rest. auto.
  - intros t. destruct (first_visible els) as [u | ] eqn:F.
    + intros H. injection H as <-. now apply (first_visible_trimmed els).
    + destruct els as [ | e rest ]; [ discriminate | ].
      destruct (innerText e); [ | discriminate ].
      intros H. injection H as <-. apply js_trim_idempotent.
Qed.

(** ** [parse_card_info_from_text] *)

Lemma card_info_fold (src : list string) (ls : list string) :
  forall acc,
    Forall (fun l => strip l = l /\ In l src) ls ->
    (forall n, fst acc = Some n ->
       nonempty n = true /\ String.prefix "$" n = false /\
       is_amount n = false /\ 0 < py_len n < 50 /\
       strip n = n /\ In n src) ->
    (forall b, snd acc = Some b ->
       String.prefix "$" b = true /\ strip b = b /\ In b src) ->
    let out := fold_left card_info_step ls acc in
    (forall n, fst out = Some n ->
       nonempty n = true /\ String.prefix "$" n = false /\
       is_amount n = false /\ 0 < py_len n < 50 /\
       strip n = n /\ In n src) /\
    (forall b, snd out = Some b ->
       String.prefix "$" b = true /\ strip b = b /\ In b src).
Proof.
  induction ls as [ | l rest IH ]; intros acc HL Hn Hb; simpl.
  - split; assumption.
  - inversion HL as [ | ? ? [Hs Hi] Hrest ]; subst.
    apply IH; [ exact Hrest | | ];
      destruct acc as [name bal]; unfold card_info_step;
      destruct (String.prefix "$" l) eqn:P; cbn [fst snd] in *.
    + exact Hn.
    + destruct (negb (is_amount l) && nonempty l && (0 <? py_len l)
                && (py_len l <? 50)) eqn:C; cbn [fst]; [ | exact Hn ].
      intros n E. injection E as <-.
      apply andb_true_iff in C. destruct C as [C C4].
      apply andb_true_iff in C. destruct C as [C C3].
      apply andb_true_iff in C. destruct C as [C1 C2].
      apply negb_true_iff in C1. apply Z.ltb_lt in C3, C4.
      repeat split; auto.
    + intros b E. injection E as <-. repeat split; auto.
    + destruct (negb (is_amount l) && nonempty l && (0 <? py_len l)
                && (py_len l <? 50)); exact Hb.
Qed.

(** X4. A card name that [parse_card_info_from_text] returns is one of
    the stripped lines of the text: it is not empty, has no white space
    at either end, does not start with "$", is not an amount and has
    fewer than 50 characters.  A balance it returns is one of the
    stripped lines and starts with "$". *)
Theorem card_info_name_and_balance :
  forall text,
    (forall n, fst (parse_card_info_from_text text) = Some n ->
       nonempty n = true /\ String.prefix "$" n = false /\
       is_amount n = false /\ 0 < py_len n < 50 /\
       strip n = n /\ In n (map strip (split newline text))) /\
    (forall b, snd (parse_card_info_from_text text) = Some b ->
       String.prefix "$" b = true /\ strip b = b /\
       In b (map strip (split newline text))).
Proof.
  intros text. unfold parse_card_info_from_text.
  set (src := map strip (split newline text)).
  set (lines := map strip (filter (fun l => nonempty (strip l))
                                  (split newline text))).
  assert (HL : Forall (fun l => strip l = l /\ In l src) lines).
  { apply Forall_forall. intros l Hin. subst lines src.
    apply in_map_iff in Hin. destruct Hin as [x [<- Hx]].
    apply filter_In in Hx. destruct Hx as [Hx _].
    split; [ apply strip_idempotent | now apply in_map ]. }
  destruct (card_info_fold src lines (None, None) HL) as [Hn Hb];
    try (intros ? E; discriminate).
  destruct (fold_left card_info_step lines (None, None)) as [name bal].
  cbn [fst snd] in *. split; [ | exact Hb ].
  intros n E. destruct name as [x | ]; cbn [truthy] in E.
  - destruct (Hn x eq_refl) as [H1 [H2 [H3 [H4 [H5 H6]]]]].
    rewrite H1 in E. cbn [option_map] in E. rewrite H5 in E.
    injection E as <-. repeat split; auto; lia.
  - discriminate.
Qed.

(** ** Symbols in amounts *)

Lemma remove_char_idempotent c s :
  remove_char c (remove_char c s) = remove_char c s.
Proof.
  induction s as [ | x r IH ]; simpl; [ reflexivity | ].
  destruct (Ascii.eqb c x) eqn:E; [ exact IH | ].
  simpl. now rewrite E, IH.
Qed.

Lemma remove_char_comm a b s :
  remove_char a (remove_char b s) = remove_char b (remove_char a s).
Proof.
  induction s as [ | x r IH ]; simpl; [ reflexivity | ].
  destruct (Ascii.eqb b x) eqn:B, (Ascii.eqb a x) eqn:A; simpl;
    rewrite ?A, ?B, IH; reflexivity.
Qed.

Lemma has_char_remove_other a b s :
  Ascii.eqb a b = false -> has_char a (remove_char b s) = has_char a s.
Proof.
  intros N. induction s as [ | x r IH ]; simpl; [ reflexivity | ].
  destruct (Ascii.eqb b x) eqn:B.
  - apply Ascii.eqb_eq in B. subst x. now rewrite N, IH.
  - simpl. now rewrite IH.
Qed.

(** X5. The currency symbol and the thousands separators have no part in
    the amount: removing every "$" or every "," from the amount text
    leaves the result of the parse unchanged, exception included. *)
Theorem amount_ignores_symbol_and_separators :
  forall amount_text,
    parse_amount (remove_char "$" amount_text) = parse_amount amount_text /\
    parse_amount (remove_char "," amount_text) = parse_amount amount_text.
Proof.
  intros t. unfold parse_amount, clean_amount. split.
  - rewrite remove_char_idempotent.
    now rewrite (has_char_remove_other "-" "$" t eq_refl).
  - rewrite (remove_char_comm "$" "," t), remove_char_idempotent.
    now rewrite (has_char_remove_other "-" "," t eq_refl).
Qed.

(** ** Time conversion for every text *)

Lemma convert_time_inversion clk time_text local_time utc_time :
  convert_time clk time_text = Ok (local_time, utc_time) ->
  exists h m,
    parse_hhmm time_text = Some (h, m) /\
    0 <= h <= 23 /\ 0 <= m <= 59 /\
    local_time = mkDatetime (on (local_now clk)) h m 0 0 (Some local_zone) /\
    astimezone_utc local_time = Ok utc_time.
Proof.
  unfold convert_time, parse_hhmm.
  destruct (split ":" time_text) as [ | hh [ | mm [ | x rest ] ] ];
    try discriminate.
  cbn [rbind fst snd].
  destruct (py_int hh) as [h | ]; [ | discriminate ].
  destruct (py_int mm) as [m | ]; [ | discriminate ].
  cbn [or_raise rbind]. unfold replace_hm, in_zone. cbn [on tz].
  destruct ((0 <=? h) && (h <=? 23) && (0 <=? m) && (m <=? 59)) eqn:R;
    [ | discriminate ].
  cbn [rbind].
  destruct (astimezone_utc
              (mkDatetime (on (local_now clk)) h m 0 0 (Some local_zone)))
    as [u | e] eqn:A; [ | discriminate ].
  cbn [rbind]. intros H. injection H as <- <-.
  exists h, m.
  apply andb_true_iff in R. destruct R as [R R4].
  apply andb_true_iff in R. destruct R as [R R3].
  apply andb_true_iff in R. destruct R as [R1 R2].
  apply Z.leb_le in R1, R2, R3, R4.
  repeat split; auto.
Qed.

Lemma convert_time_overflow clk time_text h m :
  parse_hhmm time_text = Some (h, m) ->
  h < 11 ->
  prev_day (on (local_now clk)) = None ->
  convert_time clk time_text = Raise OverflowError.
Proof.
  intros P L N. unfold parse_hhmm in P. unfold convert_time.
  destruct (split ":" time_text) as [ | hh [ | mm [ | x rest ] ] ];
    try discriminate.
  cbn [rbind fst snd].
  destruct (py_int hh) as [h' | ]; [ | discriminate ].
  destruct (py_int mm) as [m' | ]; [ | discriminate ].
  cbn [or_raise rbind]. unfold replace_hm, in_zone. cbn [on tz].
  destruct ((0 <=? h') && (h' <=? 23) && (0 <=? m') && (m' <=? 59)) eqn:R;
    [ | discriminate ].
  injection P as -> ->.
  apply andb_true_iff in R. destruct R as [R R4].
  apply andb_true_iff in R. destruct R as [R R3].
  apply andb_true_iff in R. destruct R as [R1 R2].
  apply Z.leb_le in R1, R2, R3, R4.
  cbn [rbind]. unfold astimezone_utc. cbn [tz hour minute on second microsecond].
  change local_zone with 660.
  destruct (Z.ltb_spec (h * 60 + m - 660) 0) as [L1 | L1]; [ | lia ].
  rewrite N. reflexivity.
Qed.

(** X6. Whatever the time text, on a valid local date the two strings
    [to_utc_and_local] returns are the ISO texts of two datetimes that
    denote the same instant, the second one in UTC.  When the text
    parses as hour [h] and minute [m] and the UTC date exists (the local
    date itself from 11:00 on, the day before earlier), they are the
    local date at [h]:[m]:00 +11:00 and that UTC date at
    [(h + 13) mod 24]:[m]:00; in every other case both are the current
    UTC time. *)
Theorem timestamps_denote_one_instant :
  forall clk time_text,
    valid_date (on (local_now clk)) = true ->
    exists local_time utc_time,
      to_utc_and_local clk time_text
      = (isoformat local_time, isoformat utc_time) /\
      instant local_time = instant utc_time /\
      tz utc_time = Some 0 /\
      match parse_hhmm time_text with
      | Some (h, m) =>
          match (if 11 <=? h then Some (on (local_now clk))
                 else prev_day (on (local_now clk))) with
          | Some utc_date =>
              local_time
              = mkDatetime (on (local_now clk)) h m 0 0 (Some (11 * 60)) /\
              utc_time
              = mkDatetime utc_date ((h + 13) mod 24) m 0 0 (Some 0)
          | None =>
              local_time = in_zone 0 (utc_now clk) /\ utc_time = local_time
          end
      | None =>
          local_time = in_zone 0 (utc_now clk) /\ utc_time = local_time
      end.
Proof.
  intros clk time_text V. unfold to_utc_and_local.
  assert (Conv : forall h m utc_date,
             convert_time clk time_text
             = Ok (mkDatetime (on (local_now clk)) h m 0 0 (Some (11 * 60)),
                   mkDatetime utc_date ((h + 13) mod 24) m 0 0 (Some 0)) ->
             instant (mkDatetime (on (local_now clk)) h m 0 0 (Some (11 * 60)))
             = instant (mkDatetime utc_date ((h + 13) mod 24) m 0 0 (Some 0))).
  { intros h m utc_date C.
    destruct (convert_time_inversion _ _ _ _ C)
      as (h' & m' & _ & Hh & Hm & El & A).
    injection El as <- <-.
    symmetry.
    apply (astimezone_utc_instant
             (mkDatetime (on (local_now clk)) h m 0 0 (Some (11 * 60)))
             (mkDatetime utc_date ((h + 13) mod 24) m 0 0 (Some 0))
             local_zone);
      [ exact V | reflexivity | cbn [hour minute]; unfold local_zone; lia
      | exact A ]. }
  destruct (parse_hhmm time_text) as [[h m] | ] eqn:P.
  - destruct (Z.leb_spec 11 h) as [L | L].
    + destruct (convert_time_parsed clk time_text h m P V (or_introl L))
        as (d & C & Hge & _). rewrite (Hge L) in C.
      rewrite C. eexists _, _. repeat split. now apply Conv.
    + destruct (prev_day (on (local_now clk))) as [d | ] eqn:PD.
      * assert (N : on (local_now clk) <> mkDate 1 1 1)
          by (intros E; rewrite E in PD; discriminate).
        destruct (convert_time_parsed clk time_text h m P V (or_intror N))
          as (d' & C & _ & Hlt & _).
        rewrite PD in Hlt. specialize (Hlt L). injection Hlt as <-.
        rewrite C. eexists _, _. repeat split. now apply Conv.
      * rewrite (convert_time_overflow clk time_text h m P L PD).
        eexists _, _. repeat split.
  - destruct (convert_time_parse_failure clk time_text P) as [e E].
    rewrite E. eexists _, _. repeat split.
Qed.

(** X7. For a text that parses as hour [h] and minute [m], on a valid
    local date, the local timestamp is that date at [h]:[m]:00 with
    offset +11:00 and the UTC timestamp has hour [(h + 13) mod 24] and
    the same minute, on the same date when [h] is 11 or more and on the
    day before otherwise (an hour before 11 on 0001-01-01, which has no
    day before, is excluded). *)
Theorem parsed_time_local_and_utc_fields :
  forall clk time_text h m,
    parse_hhmm time_text = Some (h, m) ->
    valid_date (on (local_now clk)) = true ->
    11 <= h \/ on (local_now clk) <> mkDate 1 1 1 ->
    exists utc_date,
      convert_time clk time_text
      = Ok (mkDatetime (on (local_now clk)) h m 0 0 (Some (11 * 60)),
            mkDatetime utc_date ((h + 13) mod 24) m 0 0 (Some 0)) /\
      (11 <= h -> utc_date = on (local_now clk)) /\
      (h < 11 -> prev_day (on (local_now clk)) = Some utc_date).
Proof.
  intros clk time_text h m P V N.
  destruct (convert_time_parsed clk time_text h m P V N)
    as (d & C & Hge & Hlt & _).
  exists d. auto.
Qed.

(** ** Extracted records *)

Lemma classify_in_trip_types name : In (classify name) trip_types.
Proof.
  unfold classify, trip_types.
  destruct (contains "train" name); [ simpl; tauto | ].
  destruct (contains "metro" name); [ simpl; tauto | ].
  destruct (contains "bus" name); [ simpl; tauto | ].
  destruct (contains "ferry" name); [ simpl; tauto | ].
  destruct (contains "light" name || contains "rail" name); simpl; tauto.
Qed.

Lemma trip_of_item_shape clk card_name item t :
  trip_of_item clk card_name item = Ok (Some t) ->
  In (trip_type t) trip_types /\
  card_id t = card_name /\
  strip (tap_on_location t) = tap_on_location t /\
  strip (tap_off_location t) = tap_off_location t /\
  (time_local t, time_utc t)
  = to_utc_and_local clk (strip (text_of (date_el item))).
Proof.
  unfold trip_of_item.
  destruct (date_el item), (from_el item), (to_el item),
           (or_else (amount_span_el item) (amount_el item));
    try discriminate.
  destruct (parse_amount (strip s2)) as [amt | e]; simpl; [ | discriminate ].
  destruct (to_utc_and_local clk (strip s)) as [tl tu].
  intros H. injection H as <-. simpl.
  repeat split; try apply strip_idempotent.
  destruct (icon item) as [ | | a ]; simpl; try tauto.
  apply classify_in_trip_types.
Qed.

Lemma rows_kept_bound clk card_name items :
  (List.length (rows_kept clk card_name items) <= List.length items)%nat.
Proof.
  induction items as [ | item rest IH ]; simpl; [ lia | ].
  rewrite length_app.
  destruct (trip_of_item clk card_name item) as [[t | ] | e]; simpl; lia.
Qed.

(** X8. Every record [extract_trip_items] returns has one of the six
    trip types, carries the card name the extraction was called with,
    and has tap-on and tap-off locations without white space at either
    end; there are never more records than rows on the page, and none
    when the wait for the trip list times out. *)
Theorem extracted_trip_shape :
  forall clk card_name view,
  exists trips,
    outcome (extract_trip_items clk card_name view) = Ok trips /\
    Forall (fun t =>
              In (trip_type t) trip_types /\
              card_id t = card_name /\
              strip (tap_on_location t) = tap_on_location t /\
              strip (tap_off_location t) = tap_off_location t) trips /\
    (List.length trips <= List.length (rows_of view))%nat /\
    (view = TripsTimeout -> trips = []).
Proof.
  intros clk card_name view.
  exists (rows_kept clk card_name (rows_of view)).
  split; [ apply extract_outcome | ].
  split; [ | split; [ apply rows_kept_bound | intros ->; reflexivity ] ].
  apply Forall_forall. intros t Hin.
  unfold rows_kept in Hin. apply in_flat_map in Hin.
  destruct Hin as [item [_ Hin]].
  destruct (trip_of_item clk card_name item) as [[t' | ] | e] eqn:E;
    simpl in Hin; try contradiction.
  destruct Hin as [-> | []].
  apply trip_of_item_shape in E. tauto.
Qed.

(** ** Whole runs *)




Lemma collect_events_split clk portal :
  events (collect clk portal)
  = Log INFO (DetectedCards (List.length (thumbs_of portal)))
    :: match thumbs_of portal with
       | [] =>
           match solo_name (solo portal), solo_value (solo portal) with
           | Ok card_name, Ok _ =>
               events (extract_trip_items clk card_name
                                          (solo_trips (solo portal)))
           | _, _ => []
           end
       | thumbs => events (card_loop clk (List.length thumbs) thumbs 1
                                     (mkLoopState "" [] []))
       end.
Proof.
  unfold collect, thumbs_of.
  assert (S : events (bind (log INFO (DetectedCards 0))
                           (fun _ => solo_pass clk (solo portal)))
              = Log INFO (DetectedCards 0)
                :: match solo_name (solo portal), solo_value (solo portal) with
                   | Ok card_name, Ok _ =>
                       events (extract_trip_items clk card_name
                                                  (solo_trips (solo portal)))
                   | _, _ => []
                   end).
  { unfold solo_pass.
    destruct (solo_name (solo portal)) as [card_name | e]; [ | reflexivity ].
    destruct (solo_value (solo portal)) as [balance_text | e];
      [ | reflexivity ].
    pose proof (extract_outcome clk card_name (solo_trips (solo portal)))
      as Ho.
    unfold lift. cbn [bind log emit app].
    destruct (extract_trip_items clk card_name (solo_trips (solo portal)))
      as [evs r].
    simpl in Ho. subst r. simpl. now rewrite app_nil_r. }
  destruct (card_thumbs portal) as [ | [ | thumb rest ] ].
  - exact S.
  - exact S.
  - set (thumbs := thumb :: rest).
    set (n := List.length thumbs).
    replace (match n with
             | 0%nat => solo_pass clk (solo portal)
             | S _ => card_loop clk n thumbs 1 (mkLoopState "" [] [])
             end)
      with (card_loop clk n thumbs 1 (mkLoopState "" [] []))
      by reflexivity.
    destruct (card_loop clk n thumbs 1 (mkLoopState "" [] [])) as [evs r].
    reflexivity.
Qed.





(** X10. Typed credentials are used without the white space around
    them: a run without the demo flag behaves the same on the typed
    lines and on their stripped forms. *)
Theorem main_ignores_space_around_credentials :
  forall clk portal username_line password_line,
    main clk false portal username_line password_line
    = main clk false portal (strip username_line) (strip password_line).
Proof.
  intros clk portal u p. unfold main. now rewrite !strip_idempotent.
Qed.

(** ** Card identities *)

Lemma resolve_card_name_nonempty idx prev nm read polls :
  nonempty (resolve_card_name idx prev nm read polls) = true.
Proof.
  unfold resolve_card_name.
  destruct nm as [n | ]; cbn [truthy text_of].
  - destruct (nonempty n) eqn:E; [ exact E | ].
    destruct (shown_name prev read polls) as [c | ]; cbn [truthy text_of];
      [ | reflexivity ].
    destruct (nonempty c) eqn:F; [ exact F | reflexivity ].
  - destruct (shown_name prev read polls) as [c | ]; cbn [truthy text_of];
      [ | reflexivity ].
    destruct (nonempty c) eqn:F; [ exact F | reflexivity ].
Qed.

Lemma card_step_labels_failed clk n st idx thumb msg :
  click_error thumb = Some msg ->
  labels_of (events (card_step clk n st idx thumb)) = [].
Proof.
  intros C. unfold card_step, click.
  destruct (sibling_info (sibling thumb)) as [nm bl]. rewrite C.
  reflexivity.
Qed.

Lemma rows_kept_card_id clk card_name items t :
  In t (rows_kept clk card_name items) -> card_id t = card_name.
Proof.
  unfold rows_kept. intros Hin. apply in_flat_map in Hin.
  destruct Hin as [item [_ Hin]].
  destruct (trip_of_item clk card_name item) as [[t' | ] | e] eqn:E;
    simpl in Hin; try contradiction.
  destruct Hin as [-> | []]. now apply trip_of_item_fields in E.
Qed.

Lemma reported_names_app evs1 evs2 :
  reported_names (evs1 ++ evs2) = reported_names evs1 ++ reported_names evs2.
Proof.
  unfold reported_names. now rewrite labels_of_app, map_app.
Qed.

Lemma card_loop_identities clk n thumbs : forall idx st,
  let evs := events (card_loop clk n thumbs idx st) in
  let st' := loop_after clk thumbs idx st in
  (forall b, In b (balance_list st') ->
     In b (balance_list st) \/
     (truthy (bal_card_id b) = true /\ bal_currency b = "AUD" /\
      In (bal_card_id b) (reported_names evs))) /\
  (forall t, In t (all_transactions st') ->
     In t (all_transactions st) \/
     (truthy (card_id t) = true /\ In (card_id t) (reported_names evs))) /\
  Forall (fun l => nonempty (snd l) = true) (labels_of evs).
Proof.
  induction thumbs as [ | thumb rest IH ]; intros idx st;
    cbn [card_loop loop_after]; cbv zeta.
  - repeat split; auto.
  - destruct (card_step_spec clk n st idx thumb) as [Ho _].
    rewrite (events_bind _ _ _ Ho).
    destruct (IH (S idx) (card_after clk st idx thumb)) as [Hb [Ht Hl]].
    rewrite reported_names_app, labels_of_app.
    assert (Hname : nonempty (label_of st idx thumb) = true)
      by apply resolve_card_name_nonempty.
    destruct (click_error thumb) as [msg | ] eqn:C.
    + assert (E : card_after clk st idx thumb = st)
        by (unfold card_after; now rewrite C).
      rewrite E in *.
      rewrite (card_step_labels_failed _ _ _ _ _ _ C).
      unfold reported_names at 1 3.
      rewrite (card_step_labels_failed _ _ _ _ _ _ C). cbn [map app].
      repeat split; assumption.
    + rewrite (card_step_labels _ _ _ _ _ C).
      assert (R : reported_names (events (card_step clk n st idx thumb))
                  = [Some (label_of st idx thumb)]).
      { unfold reported_names. now rewrite (card_step_labels _ _ _ _ _ C). }
      rewrite R.
      assert (A : card_after clk st idx thumb
                  = mkLoopState (label_of st idx thumb)
                      (all_transactions st
                       ++ rows_kept clk (Some (label_of st idx thumb))
                                    (rows_of (trip_view thumb)))
                      (add_balance (Some (label_of st idx thumb))
                                   (parse_balance (balance_text_of thumb))
                                   (balance_list st)))
        by (unfold card_after; now rewrite C).
      split; [ | split ].
      * intros b Hin. destruct (Hb b Hin) as [H | [H1 [H2 H3]]].
        -- rewrite A in H. cbn [balance_list] in H. unfold add_balance in H.
           destruct (parse_balance (balance_text_of thumb)) as [x | ];
             [ | now left ].
           apply in_app_or in H. destruct H as [H | [<- | []]];
             [ now left | right ].
           cbn [bal_card_id bal_currency truthy].
           repeat split; auto. now left.
        -- right. repeat split; auto. apply in_or_app. now right.
      * intros t Hin. destruct (Ht t Hin) as [H | [H1 H2]].
        -- rewrite A in H. cbn [all_transactions] in H.
           apply in_app_or in H. destruct H as [H | H]; [ now left | right ].
           rewrite (rows_kept_card_id _ _ _ _ H). cbn [truthy].
           split; [ exact Hname | now left ].
        -- right. split; auto. apply in_or_app. now right.
      * cbn [app]. constructor; [ exact Hname | exact Hl ].
Qed.

(** X11. In an account with card thumbs, every card the run reports
    processing has a non-empty name, and every balance entry and every
    trip record collected carries such a reported name as its card id;
    every balance entry has currency "AUD". *)
Theorem multi_card_ids_are_reported_names :
  forall clk portal,
    thumbs_of portal <> [] ->
    exists st,
      outcome (collect clk portal) = Ok st /\
      Forall (fun l => nonempty (snd l) = true)
             (labels_of (events (collect clk portal))) /\
      Forall (fun b => truthy (bal_card_id b) = true /\
                       bal_currency b = "AUD" /\
                       In (bal_card_id b)
                          (reported_names (events (collect clk portal))))
             (balance_list st) /\
      Forall (fun t => truthy (card_id t) = true /\
                       In (card_id t)
                          (reported_names (events (collect clk portal))))
             (all_transactions st).
Proof.
  intros clk portal N.
  destruct (collect_spec clk portal) as [Ho _].
  unfold reported_names. rewrite collect_events_split.
  unfold collected in Ho. destruct (thumbs_of portal) as [ | thumb rest ];
    [ contradiction | ].
  set (thumbs := thumb :: rest) in *.
  exists (loop_after clk thumbs 1%nat (mkLoopState "" [] [])).
  split; [ exact Ho | ].
  destruct (card_loop_identities clk (List.length thumbs) thumbs 1%nat
                                 (mkLoopState "" [] [])) as [Hb [Ht Hl]].
  cbn [labels_of flat_map app].
  fold (labels_of (events (card_loop clk (List.length thumbs) thumbs 1
                                     (mkLoopState "" [] [])))).
  split; [ exact Hl | ]. split.
  - apply Forall_forall. intros b Hin.
    destruct (Hb b Hin) as [[] | H]. exact H.
  - apply Forall_forall. intros t Hin.
    destruct (Ht t Hin) as [[] | H]. exact H.
Qed.

(** ** Positions and counts *)

Lemma card_loop_positions clk n thumbs : forall idx st,
  map fst (labels_of (events (card_loop clk n thumbs idx st)))
  = clicked_positions thumbs idx /\
  (List.length (balance_list (loop_after clk thumbs idx st))
   <= List.length (balance_list st)
      + List.length (clicked_positions thumbs idx))%nat.
Proof.
  induction thumbs as [ | thumb rest IH ]; intros idx st;
    cbn [card_loop loop_after clicked_positions].
  - split; [ reflexivity | simpl; lia ].
  - destruct (card_step_spec clk n st idx thumb) as [Ho _].
    rewrite (events_bind _ _ _ Ho), labels_of_app, map_app.
    destruct (IH (S idx) (card_after clk st idx thumb)) as [Hp Hc].
    rewrite Hp. unfold clicked, card_after in *.
    destruct (click_error thumb) as [msg | ] eqn:C.
    + rewrite (card_step_labels_failed _ _ _ _ _ _ C).
      split; [ reflexivity | exact Hc ].
    + rewrite (card_step_labels _ _ _ _ _ C).
      split; [ reflexivity | ].
      cbv beta zeta in Hc. cbn [balance_list] in Hc.
      unfold add_balance in *. cbn [List.length].
      destruct (parse_balance (balance_text_of thumb));
        [ rewrite length_app in Hc; cbn [List.length] in Hc | ]; lia.
Qed.

Lemma clicked_positions_length thumbs : forall idx,
  (List.length (clicked_positions thumbs idx) <= List.length thumbs)%nat.
Proof.
  induction thumbs as [ | thumb rest IH ]; intros idx; simpl; [ lia | ].
  specialize (IH (S idx)). destruct (clicked thumb); simpl; lia.
Qed.

Lemma clicked_positions_sorted thumbs : forall idx,
  StronglySorted lt (clicked_positions thumbs idx) /\
  Forall (fun i => (idx <= i < idx + List.length thumbs)%nat)
         (clicked_positions thumbs idx).
Proof.
  induction thumbs as [ | thumb rest IH ]; intros idx; simpl.
  - split; constructor.
  - destruct (IH (S idx)) as [Hs Hb].
    assert (Hb' : Forall (fun i => (idx <= i < idx + S (List.length rest))%nat)
                         (clicked_positions rest (S idx)))
      by (apply (Forall_impl _ (P := fun i => (S idx <= i
                                               < S idx + List.length rest)%nat));
          [ intros i H; lia | exact Hb ]).
    destruct (clicked thumb); [ | split; assumption ].
    split.
    + constructor; [ exact Hs | ].
      apply (Forall_impl _ (P := fun i => (S idx <= i
                                           < S idx + List.length rest)%nat));
        [ intros i H; lia | exact Hb ].
    + constructor; [ lia | exact Hb' ].
Qed.

Lemma reported_positions clk portal username password :
  map fst (labels_of (events (scrape_opal clk portal username password)))
  = (if login_ok portal then clicked_positions (thumbs_of portal) 1
     else []).
Proof.
  destruct (login_ok portal) eqn:L.
  - rewrite (proj1 (scrape_opal_events _ _ _ _ L)), !labels_of_app.
    assert (W : labels_of (match outcome (collect clk portal) with
                           | Ok st => events (write_outputs clk st)
                           | Raise _ => []
                           end) = [])
      by (destruct (outcome (collect clk portal)); reflexivity).
    rewrite W, app_nil_r. cbn [labels_of flat_map app].
    fold (labels_of (events (collect clk portal))).
    rewrite collect_events_split. cbn [labels_of flat_map app].
    destruct (thumbs_of portal) as [ | thumb rest ].
    + destruct (solo_name (solo portal)) as [card_name | e];
        [ | reflexivity ].
      destruct (solo_value (solo portal)) as [balance_text | e];
        [ | reflexivity ].
      fold (labels_of (events (extract_trip_items clk card_name
                                 (solo_trips (solo portal))))).
      now rewrite extract_labels.
    + apply card_loop_positions.
  - unfold login_ok in L. unfold scrape_opal.
    destruct (username_ctrl portal && password_ctrl portal); simpl in L.
    + rewrite L.
      destruct (still_login portal || truthy (error_message (error_el portal)));
        reflexivity.
    + reflexivity.
Qed.

(** X12. Every card a run reports processing is a thumb whose click
    succeeded, reported under its position counted from 1 among all the
    thumbs of the page, and the reports come in increasing order of
    position: a thumb whose click fails is never reported and does not
    shift the positions of the thumbs after it.  When the login does not
    pass, no card is reported. *)
Theorem reported_positions_are_clicked_thumbs :
  forall clk portal username password,
    let reported :=
      map fst (labels_of (events (scrape_opal clk portal
                                              username password))) in
    incl reported (clicked_positions (thumbs_of portal) 1) /\
    StronglySorted lt reported /\
    Forall (fun i => (1 <= i <= List.length (thumbs_of portal))%nat)
           reported /\
    (login_ok portal = false -> reported = []).
Proof.
  intros clk portal username password reported. subst reported.
  rewrite reported_positions.
  destruct (clicked_positions_sorted (thumbs_of portal) 1) as [Hs Hb].
  destruct (login_ok portal).
  - split; [ apply incl_refl | ]. split; [ exact Hs | ].
    split; [ | discriminate ].
    apply (Forall_impl _ (P := fun i => (1 <= i < 1 + List.length
                                                       (thumbs_of portal))%nat));
      [ intros i H; lia | exact Hb ].
  - split; [ intros x [] | ]. split; [ constructor | ].
    split; [ constructor | reflexivity ].
Qed.

(** X13. A run captures at most one balance when the page has no thumb,
    and at most one per thumb whose click succeeds when it has thumbs
    (none when no thumb can be clicked); so when the login passes, the
    collection ends normally and at most one thumb can be clicked,
    [balance.json] is the flat object, never the "cards" array. *)
Theorem few_cards_give_flat_balance :
  forall clk portal username password,
    (thumbs_of portal = [] ->
     (List.length (captured_balances clk portal) <= 1)%nat) /\
    (thumbs_of portal <> [] ->
     (List.length (captured_balances clk portal)
      <= List.length (clicked_positions (thumbs_of portal) 1))%nat) /\
    (login_ok portal = true ->
     forall st, outcome (collect clk portal) = Ok st ->
     (List.length (clicked_positions (thumbs_of portal) 1) <= 1)%nat ->
     exists bal cid,
       writes_to "balance.json"
                 (events (scrape_opal clk portal username password))
       = [ JObj [ ("balance", bal);
                  ("currency", JStr "AUD");
                  ("card_id", cid);
                  ("last_updated", JStr (isoformat (sys_now clk))) ] ]).
Proof.
  intros clk portal username password.
  assert (B : forall st, outcome (collect clk portal) = Ok st ->
              (thumbs_of portal = [] ->
               (List.length (balance_list st) <= 1)%nat) /\
              (thumbs_of portal <> [] ->
               (List.length (balance_list st)
                <= List.length (clicked_positions (thumbs_of portal) 1))%nat)).
  { intros st. rewrite (proj1 (collect_spec clk portal)). unfold collected.
    destruct (thumbs_of portal) as [ | thumb rest ].
    - destruct (solo_name (solo portal)) as [card_name | e];
        [ | discriminate ].
      destruct (solo_value (solo portal)) as [balance_text | e];
        [ | discriminate ].
      intros H. injection H as <-. cbn [balance_list]. unfold add_balance.
      split; [ | intros N; now contradiction N ].
      intros _. destruct (parse_balance balance_text); simpl; lia.
    - intros H. injection H as <-.
      split; [ discriminate | ]. intros _.
      destruct (card_loop_positions clk 0 (thumb :: rest) 1%nat
                                    (mkLoopState "" [] [])) as [_ H].
      exact H. }
  split; [ | split ].
  - intros T. unfold captured_balances.
    destruct (login_ok portal); [ | simpl; lia ].
    destruct (outcome (collect clk portal)) as [st | e]; [ | simpl; lia ].
    now apply (B st eq_refl).
  - intros T. unfold captured_balances.
    destruct (login_ok portal); [ | simpl; lia ].
    destruct (outcome (collect clk portal)) as [st | e]; [ | simpl; lia ].
    now apply (B st eq_refl).
  - intros L st O F. rewrite (scrape_opal_writes _ _ _ _ _ L), O.
    destruct (write_outputs_writes clk st) as [_ ->].
    destruct (B st O) as [B0 B1].
    assert (Hlen : (List.length (balance_list st) <= 1)%nat).
    { destruct (thumbs_of portal) as [ | thumb rest ] eqn:T.
      - now apply B0.
      - assert (N : thumb :: rest <> []) by discriminate.
        specialize (B1 N). lia. }
    unfold balance_document.
    destruct (balance_list st) as [ | b [ | b2 rest ] ];
      cbn [List.length] in Hlen.
    + eexists _, _. reflexivity.
    + eexists _, _. reflexivity.
    + lia.
Qed.

(** ** Order of the records *)





(** ** Worked cases of the further properties *)

(** A visible element after a hidden one gives its trimmed text. *)
Lemma first_visible_element_wins_witness :
  get_first_visible_text [hidden_element; shown_element; hidden_element]
  = Ok (Some "Jack").
Proof.
  apply (first_visible_element_wins [hidden_element] shown_element " Jack "
                                    [hidden_element]).
  - constructor; [ right; left; reflexivity | constructor ].
  - reflexivity.
  - reflexivity.
  - reflexivity.
Defined.

(** Only hidden elements: the first one's text is used. *)
Lemma first_visible_text_fallback_witness :
  get_first_visible_text [hidden_element; hidden_element]
  = Ok (Some "Hidden").
Proof.
  apply (proj1 (proj2 (first_visible_text_fallback
                         [hidden_element; hidden_element]))
               hidden_element [hidden_element] " Hidden ");
    reflexivity.
Defined.

(** The sibling text of the first sample thumb. *)
Lemma card_info_name_and_balance_witness :
  String.prefix "$" "$9.70" = true /\ strip "$9.70" = "$9.70" /\
  In "$9.70" (map strip (split newline ("Jack" ++ String newline "$9.70"))).
Proof.
  apply (proj2 (card_info_name_and_balance
                  ("Jack" ++ String newline "$9.70")) "$9.70").
  reflexivity.
Defined.

(** "09:15" on the sample clock. *)
Lemma timestamps_denote_one_instant_witness :
  exists local_time utc_time,
    to_utc_and_local sample_clock "09:15"
    = (isoformat local_time, isoformat utc_time) /\
    instant local_time = instant utc_time /\
    tz utc_time = Some 0.
Proof.
  destruct (timestamps_denote_one_instant sample_clock "09:15" eq_refl)
    as (l & u & H1 & H2 & H3 & _).
  exists l, u. split; [ exact H1 | split; [ exact H2 | exact H3 ] ].
Defined.

(** "17:42" on the sample clock: the same date, 06:42 in UTC. *)
Lemma parsed_time_local_and_utc_fields_witness :
  exists utc_date,
    convert_time sample_clock "17:42"
    = Ok (mkDatetime (mkDate 2025 11 5) 17 42 0 0 (Some 660),
          mkDatetime utc_date 6 42 0 0 (Some 0)).
Proof.
  destruct (parsed_time_local_and_utc_fields sample_clock "17:42" 17 42
              eq_refl eq_refl)
    as (d & H & _).
  - left. discriminate.
  - exists d. exact H.
Defined.


(** Three thumbs, the second of which cannot be clicked. *)
Lemma multi_card_ids_are_reported_names_witness :
  exists st,
    outcome (collect sample_clock three_card_portal) = Ok st /\
    Forall (fun b => truthy (bal_card_id b) = true /\
                     bal_currency b = "AUD" /\
                     In (bal_card_id b)
                        (reported_names
                           (events (collect sample_clock three_card_portal))))
           (balance_list st).
Proof.
  destruct (multi_card_ids_are_reported_names sample_clock three_card_portal)
    as (st & H1 & _ & H2 & _).
  - discriminate.
  - exists st. split; [ exact H1 | exact H2 ].
Defined.

(** No thumb at all: the flat object. *)
Lemma few_cards_give_flat_balance_witness :
  exists bal cid,
    writes_to "balance.json"
              (events (scrape_opal sample_clock bare_portal "user" "secret"))
    = [ JObj [ ("balance", bal);
               ("currency", JStr "AUD");
               ("card_id", cid);
               ("last_updated", JStr (isoformat (sys_now sample_clock))) ] ].
Proof.
  apply (proj2 (proj2 (few_cards_give_flat_balance sample_clock bare_portal
                                                   "user" "secret"))
               eq_refl (mkLoopState "" [] []) eq_refl).
  apply le_0_n.
Defined.

